(** * Polar projection and interactive pan/zoom of [matplotlib.projections.polar]

    A shallow embedding of the classes nested in [PolarAxes]
    ([PolarTransform], [PolarAffine], [InvertedPolarTransform],
    [RadialLocator]) and of the gesture methods [start_pan], [drag_pan],
    [end_pan], followed by the properties stated about them.

    Numbers.  The program computes with numpy [float64] values.  They are
    embedded as the real numbers extended with the two infinities and the
    not-a-number value; rounding, overflow and the sign of zero are not
    represented.  Every operation follows numpy on the special values
    (a division by zero yields an infinity or [NaN], a comparison with [NaN]
    is false, [NaN != x] is true). *)

From Stdlib Require Import String.
From Stdlib Require Import Reals Lra List Bool Arith ZArith Lia.
Import ListNotations.

Local Open Scope R_scope.

(** ** Extended reals standing for [float64] *)

Inductive float64 : Type :=
| Fin (x : R)
| PInf
| NInf
| NaN.

(** The operations of the [numpy] module (imported as [np]) and Python's
    operators on such values. *)
Module Np.

(** The infinity carrying the sign of [x], and [NaN] when [x] is zero:
    the value of [x * inf] and of [x / 0]. *)
Definition inf_of_sign (x : R) : float64 :=
  if Rlt_dec 0 x then PInf else if Rlt_dec x 0 then NInf else NaN.

Definition neg (a : float64) : float64 :=
  match a with
  | Fin x => Fin (- x)
  | PInf => NInf
  | NInf => PInf
  | NaN => NaN
  end.

Definition add (a b : float64) : float64 :=
  match a, b with
  | Fin x, Fin y => Fin (x + y)
  | NaN, _ | _, NaN => NaN
  | PInf, NInf | NInf, PInf => NaN
  | PInf, _ | _, PInf => PInf
  | NInf, _ | _, NInf => NInf
  end.

Definition sub (a b : float64) : float64 := add a (neg b).

Definition mul (a b : float64) : float64 :=
  match a, b with
  | Fin x, Fin y => Fin (x * y)
  | NaN, _ | _, NaN => NaN
  | Fin x, PInf | PInf, Fin x => inf_of_sign x
  | Fin x, NInf | NInf, Fin x => inf_of_sign (- x)
  | PInf, PInf | NInf, NInf => PInf
  | PInf, NInf | NInf, PInf => NInf
  end.

Definition div (a b : float64) : float64 :=
  match a, b with
  | Fin x, Fin y => if Req_dec_T y 0 then inf_of_sign x else Fin (x / y)
  | NaN, _ | _, NaN => NaN
  | Fin _, (PInf | NInf) => Fin 0
  | PInf, Fin y => if Rlt_dec y 0 then NInf else PInf
  | NInf, Fin y => if Rlt_dec y 0 then PInf else NInf
  | (PInf | NInf), (PInf | NInf) => NaN
  end.

(** Python's [abs]. *)
Definition abs (a : float64) : float64 :=
  match a with
  | Fin x => Fin (Rabs x)
  | PInf | NInf => PInf
  | NaN => NaN
  end.

(** [np.sqrt], [np.cos], [np.sin], [np.arccos]. *)
Definition sqrt (a : float64) : float64 :=
  match a with
  | Fin x => if Rlt_dec x 0 then NaN else Fin (R_sqrt.sqrt x)
  | PInf => PInf
  | NInf | NaN => NaN
  end.

Definition cos (a : float64) : float64 :=
  match a with
  | Fin x => Fin (Rtrigo_def.cos x)
  | _ => NaN
  end.

Definition sin (a : float64) : float64 :=
  match a with
  | Fin x => Fin (Rtrigo_def.sin x)
  | _ => NaN
  end.

Definition arccos (a : float64) : float64 :=
  match a with
  | Fin x =>
      if Rle_dec (-1) x then if Rle_dec x 1 then Fin (acos x) else NaN
      else NaN
  | _ => NaN
  end.

(** Comparisons; each is false as soon as one side is [NaN], except [ne]. *)
Definition lt (a b : float64) : bool :=
  match a, b with
  | Fin x, Fin y => if Rlt_dec x y then true else false
  | NInf, (Fin _ | PInf) => true
  | Fin _, PInf => true
  | _, _ => false
  end.

Definition le (a b : float64) : bool :=
  match a, b with
  | Fin x, Fin y => if Rle_dec x y then true else false
  | NInf, (Fin _ | PInf | NInf) => true
  | (Fin _ | PInf), PInf => true
  | _, _ => false
  end.

Definition gt (a b : float64) : bool := lt b a.
Definition ge (a b : float64) : bool := le b a.

Definition eq (a b : float64) : bool :=
  match a, b with
  | Fin x, Fin y => if Req_dec_T x y then true else false
  | PInf, PInf | NInf, NInf => true
  | _, _ => false
  end.

Definition ne (a b : float64) : bool := negb (eq a b).

(** [np.where(mask, a, b)] on one element. *)
Definition where_ (mask : bool) (a b : float64) : float64 :=
  if mask then a else b.

Definition pi : float64 := Fin PI.

End Np.

Declare Scope np_scope.
Delimit Scope np_scope with np.
Bind Scope np_scope with float64.
Infix "+" := Np.add : np_scope.
Infix "-" := Np.sub : np_scope.
Infix "*" := Np.mul : np_scope.
Infix "/" := Np.div : np_scope.
Notation "- x" := (Np.neg x) : np_scope.
Infix "<?" := Np.lt (at level 70) : np_scope.
Infix "<=?" := Np.le (at level 70) : np_scope.
Infix ">?" := Np.gt (at level 70) : np_scope.
Infix ">=?" := Np.ge (at level 70) : np_scope.
Infix "==?" := Np.eq (at level 70) : np_scope.
Infix "!=?" := Np.ne (at level 70) : np_scope.

Local Open Scope np_scope.

(** ** Arrays of points, exceptions *)

(** One row of an N x 2 array, and the array itself. *)
Definition point : Type := float64 * float64.
Definition array : Type := list point.

Inductive exn : Type :=
| AttributeError (attr : string)
| NameError (name : string).

Inductive result (A : Type) : Type :=
| Ok (a : A)
| Raise (e : exn).
Arguments Ok {A} a.
Arguments Raise {A} e.

(** ** Collaborators from [matplotlib.transforms] *)

(** Modelled from the spec: the view-limits box ([matplotlib.transforms.Bbox]
    is not among the sources).  It is the mutable rectangle of the data space
    whose radial bounds the subsystem reads as [ymin] and [ymax] and writes
    through [y0] and [y1]; [transformed] is the box of the images of its two
    corners. *)
Module Bbox.

Record t : Type := make { x0 : float64; y0 : float64; x1 : float64; y1 : float64 }.

Definition ymin (b : t) : float64 := y0 b.
Definition ymax (b : t) : float64 := y1 b.

Definition set_y0 (b : t) (v : float64) : t := make (x0 b) v (x1 b) (y1 b).
Definition set_y1 (b : t) (v : float64) : t := make (x0 b) (y0 b) (x1 b) v.

Definition transformed (b : t) (transform : point -> point) : t :=
  let ll := transform (x0 b, y0 b) in
  let ur := transform (x1 b, y1 b) in
  make (fst ll) (snd ll) (fst ur) (snd ur).

Definition unit : t := make (Fin 0) (Fin 0) (Fin 1) (Fin 1).

End Bbox.

(** Modelled from the spec: the affine collaborator
    ([matplotlib.transforms.Affine2D] is not among the sources), a 3 x 3
    matrix with [scale] and [translate] multiplying on the left, [to_values]
    listing the first two rows column by column, and the application to a
    point. *)
Module Affine2D.

Record t : Type := make {
  m00 : float64; m01 : float64; m02 : float64;
  m10 : float64; m11 : float64; m12 : float64;
  m20 : float64; m21 : float64; m22 : float64 }.

Definition identity : t :=
  make (Fin 1) (Fin 0) (Fin 0)
       (Fin 0) (Fin 1) (Fin 0)
       (Fin 0) (Fin 0) (Fin 1).

Definition dot (a b : t) : t :=
  make (m00 a * m00 b + m01 a * m10 b + m02 a * m20 b)
       (m00 a * m01 b + m01 a * m11 b + m02 a * m21 b)
       (m00 a * m02 b + m01 a * m12 b + m02 a * m22 b)
       (m10 a * m00 b + m11 a * m10 b + m12 a * m20 b)
       (m10 a * m01 b + m11 a * m11 b + m12 a * m21 b)
       (m10 a * m02 b + m11 a * m12 b + m12 a * m22 b)
       (m20 a * m00 b + m21 a * m10 b + m22 a * m20 b)
       (m20 a * m01 b + m21 a * m11 b + m22 a * m21 b)
       (m20 a * m02 b + m21 a * m12 b + m22 a * m22 b).

Definition clear (_ : t) : t := identity.

Definition scale (sx sy : float64) (m : t) : t :=
  dot (make sx (Fin 0) (Fin 0)
            (Fin 0) sy (Fin 0)
            (Fin 0) (Fin 0) (Fin 1)) m.

Definition translate (tx ty : float64) (m : t) : t :=
  dot (make (Fin 1) (Fin 0) tx
            (Fin 0) (Fin 1) ty
            (Fin 0) (Fin 0) (Fin 1)) m.

(** [to_values()[4]] and [to_values()[5]]: the translation entries. *)
Definition to_values_4 (m : t) : float64 := m02 m.
Definition to_values_5 (m : t) : float64 := m12 m.

Definition transform_point (m : t) (p : point) : point :=
  (m00 m * fst p + m01 m * snd p + m02 m,
   m10 m * fst p + m11 m * snd p + m12 m).

End Affine2D.

(** Modelled from the spec: the path collaborator ([matplotlib.path.Path] is
    not among the sources): a vertex sequence with optional drawing codes and
    a configured interpolation density.  [interpolated] resamples the path
    into additional intermediate vertices: every segment is cut into [steps]
    equal pieces, the original vertices are kept, and the new vertices are
    drawn with [LINETO]. *)
Module Path.

Record t : Type := make3 {
  vertices : array;
  codes : option (list Z);
  _interpolation_steps : nat }.

(** [Path(vertices, codes)]: the density defaults to 1. *)
Definition make (vertices : array) (codes : option (list Z)) : t :=
  make3 vertices codes 1.

Definition LINETO : Z := 2%Z.

Definition between (a0 a1 : point) (steps i : nat) : point :=
  (((fst a1 - fst a0) / Fin (INR steps)) * Fin (INR i) + fst a0,
   ((snd a1 - snd a0) / Fin (INR steps)) * Fin (INR i) + snd a0).

Fixpoint interpolate_from (a0 : point) (rest : array) (steps : nat) : array :=
  match rest with
  | [] => [a0]
  | a1 :: rest' =>
      a0 :: map (between a0 a1 steps) (seq 1 (steps - 1))
         ++ interpolate_from a1 rest' steps
  end.

Fixpoint interpolate_codes (cs : list Z) (steps : nat) : list Z :=
  match cs with
  | [] => []
  | [c] => [c]
  | c :: cs' => c :: repeat LINETO (steps - 1) ++ interpolate_codes cs' steps
  end.

Definition interpolated (self : t) (steps : nat) : t :=
  make (match vertices self with
        | [] => []
        | a0 :: rest => interpolate_from a0 rest steps
        end)
       (option_map (fun cs => interpolate_codes cs steps) (codes self)).

End Path.

(** ** The axes object and its gesture snapshot *)

(** [cbook.Bunch] as built by [start_pan]. *)
Module Bunch.

Record t : Type := make {
  rmax : float64;
  trans : point -> point;
  trans_inverse : point -> point;
  r_label_angle : float64;
  x : float64;
  y : float64;
  mode : string }.

End Bunch.

(** The attributes of a [PolarAxes] object that the methods below read or
    write.  [_pan_start] is [None] while the attribute does not exist.

    The transform-composition graph is a collaborator outside the sources,
    so the chain [transData] assembled by [_set_lim_and_transforms] is a
    parameter of the object: for a given content of the view-limits box,
    [transData] is the point map of [transData.frozen()] and
    [transData_inverted] the point map of [transData.inverted().frozen()]. *)
Record PolarAxes : Type := mkPolarAxes {
  _rpad : float64;
  viewLim : Bbox.t;
  transData : Bbox.t -> point -> point;
  transData_inverted : Bbox.t -> point -> point;
  _r_label1_position : Affine2D.t;
  _r_label2_position : Affine2D.t;
  _pan_start : option Bunch.t }.

Definition with_viewLim (self : PolarAxes) (v : Bbox.t) : PolarAxes :=
  mkPolarAxes (_rpad self) v (transData self) (transData_inverted self)
    (_r_label1_position self) (_r_label2_position self) (_pan_start self).

Definition with_r_labels (self : PolarAxes) (l1 l2 : Affine2D.t) : PolarAxes :=
  mkPolarAxes (_rpad self) (viewLim self) (transData self)
    (transData_inverted self) l1 l2 (_pan_start self).

Definition with_pan_start (self : PolarAxes) (p : option Bunch.t) : PolarAxes :=
  mkPolarAxes (_rpad self) (viewLim self) (transData self)
    (transData_inverted self) (_r_label1_position self)
    (_r_label2_position self) p.

(** Objects are shared by reference: a transform bound to an axes reads the
    view limits that the axes has at the time of the call. *)
Definition AxesRef : Type := nat.
Definition Store : Type := AxesRef -> PolarAxes.

(** ** [PolarAxes.PolarTransform] and [PolarAxes.InvertedPolarTransform] *)

Record PolarTransform : Type := mkPolarTransform {
  PolarTransform_axis : option AxesRef }.

Record InvertedPolarTransform : Type := mkInvertedPolarTransform {
  InvertedPolarTransform_axis : option AxesRef }.

Definition PolarTransform_transform
    (axes : Store) (self : PolarTransform) (tr : array) : array :=
  let rmin :=
    match PolarTransform_axis self with
    | Some a => Bbox.ymin (viewLim (axes a))
    | None => Fin 0
    end in
  if rmin !=? Fin 0 then
    map (fun row =>
           let t := fst row in
           let r := snd row - rmin in
           let mask := r <? Fin 0 in
           (Np.where_ mask NaN (r * Np.cos t),
            Np.where_ mask NaN (r * Np.sin t))) tr
  else
    map (fun row =>
           let t := fst row in
           let r := snd row in
           (r * Np.cos t, r * Np.sin t)) tr.

Definition PolarTransform_transform_path
    (axes : Store) (self : PolarTransform) (path : Path.t) : Path.t :=
  let vertices := Path.vertices path in
  let radial :=
    match vertices with
    | [v0; v1] => fst v0 ==? fst v1
    | _ => false
    end in
  if radial then
    Path.make (PolarTransform_transform axes self vertices) (Path.codes path)
  else
    let ipath := Path.interpolated path (Path._interpolation_steps path) in
    Path.make (PolarTransform_transform axes self (Path.vertices ipath))
              (Path.codes ipath).

Definition PolarTransform_inverted (self : PolarTransform)
    : InvertedPolarTransform :=
  mkInvertedPolarTransform (PolarTransform_axis self).

Definition InvertedPolarTransform_transform
    (axes : Store) (self : InvertedPolarTransform) (xy : array) : array :=
  map (fun row =>
         let x := fst row in
         let y := snd row in
         let r := Np.sqrt (x * x + y * y) in
         let r :=
           match InvertedPolarTransform_axis self with
           | Some a => r + Bbox.ymin (viewLim (axes a))
           | None => r
           end in
         let theta := Np.arccos (x / r) in
         let theta := Np.where_ (y <? Fin 0) (Fin 2 * Np.pi - theta) theta in
         (theta, r)) xy.

Definition InvertedPolarTransform_inverted (self : InvertedPolarTransform)
    : PolarTransform :=
  mkPolarTransform None.

(** ** [PolarAxes.PolarAffine] *)

(** [_scale_transform] is the point map of the upstream axis-scale transform
    and [_limits] the content of the view-limits box the node depends on;
    [_invalid] is the dirty bit of the composition graph. *)
Record PolarAffine : Type := mkPolarAffine {
  _scale_transform : point -> point;
  _limits : Bbox.t;
  _mtx : option Affine2D.t;
  _inverted : option Affine2D.t;
  _invalid : bool }.

(** [__init__]: a new node starts invalid, with no cached matrix. *)
Definition PolarAffine_init (scale_transform : point -> point)
    (limits : Bbox.t) : PolarAffine :=
  mkPolarAffine scale_transform limits None None true.

(** Returns the matrix together with the node after the call. *)
Definition PolarAffine_get_matrix (self : PolarAffine)
    : option Affine2D.t * PolarAffine :=
  if _invalid self then
    let limits_scaled := Bbox.transformed (_limits self) (_scale_transform self) in
    let yscale := Bbox.ymax limits_scaled - Bbox.ymin limits_scaled in
    let affine :=
      Affine2D.translate (Fin (1/2)) (Fin (1/2))
        (Affine2D.scale (Fin (1/2) / yscale) (Fin (1/2) / yscale)
           Affine2D.identity) in
    (Some affine,
     mkPolarAffine (_scale_transform self) (_limits self) (Some affine) None false)
  else (_mtx self, self).

(** [IdentityTransform]. *)
Definition IdentityTransform (p : point) : point := p.

(** ** [PolarAxes.RadialLocator] *)

(** The interface of [matplotlib.ticker.Locator] used here: the tick query
    and the adjustment of view limits. *)
Class Locator (L : Type) : Type := {
  locator_call : L -> list float64;
  locator_view_limits : L -> float64 -> float64 -> float64 * float64 }.

Record RadialLocator (B : Type) : Type := mkRadialLocator { base : B }.
Arguments mkRadialLocator {B} base.
Arguments base {B} r.

Section RadialLocatorMethods.
Context {B : Type} `{Locator B}.

Definition RadialLocator_call (self : RadialLocator B) : list float64 :=
  let ticks := locator_call (base self) in
  filter (fun x => x >? Fin 0) ticks.

Definition RadialLocator_view_limits (self : RadialLocator B)
    (vmin vmax : float64) : float64 * float64 :=
  let '(vmin, vmax) := locator_view_limits (base self) vmin vmax in
  (Fin 0, vmax).

End RadialLocatorMethods.

#[export] Instance RadialLocator_Locator {B : Type} `{Locator B}
    : Locator (RadialLocator B) :=
  {| locator_call := RadialLocator_call;
     locator_view_limits := RadialLocator_view_limits |}.

(** A locator that proposes a fixed list of candidates. *)
#[export] Instance FixedLocator : Locator (list float64) :=
  {| locator_call := fun ticks => ticks;
     locator_view_limits := fun _ vmin vmax => (vmin, vmax) |}.

(** ** Radial limits and interactive panning *)

Definition set_rmax (self : PolarAxes) (rmax : float64) : PolarAxes :=
  with_viewLim self (Bbox.set_y1 (viewLim self) rmax).

Definition get_rmax (self : PolarAxes) : float64 := Bbox.ymax (viewLim self).

Definition set_rmin (self : PolarAxes) (rmin : float64) : PolarAxes :=
  with_viewLim self (Bbox.set_y0 (viewLim self) rmin).

Definition get_rmin (self : PolarAxes) : float64 := Bbox.ymin (viewLim self).

Definition start_pan (self : PolarAxes) (x y : float64) (button : Z)
    : PolarAxes :=
  let angle :=
    Affine2D.to_values_4 (_r_label1_position self) / Fin 180 * Np.pi in
  let mode :=
    if (button =? 1)%Z then
      let epsilon := Np.pi / Fin 45 in
      let tr := transData_inverted self (viewLim self) (x, y) in
      let t := fst tr in
      if (t >=? angle - epsilon) && (t <=? angle + epsilon)
      then "drag_r_labels"%string else EmptyString
    else if (button =? 3)%Z then "zoom"%string
    else EmptyString in
  with_pan_start self
    (Some (Bunch.make
             (get_rmax self)
             (transData self (viewLim self))
             (transData_inverted self (viewLim self))
             (Affine2D.to_values_4 (_r_label1_position self))
             x y mode)).

Definition end_pan (self : PolarAxes) : result PolarAxes :=
  match _pan_start self with
  | None => Raise (AttributeError "_pan_start"%string)
  | Some _ => Ok (with_pan_start self None)
  end.

(** The module defines no [sign]: reaching the call raises [NameError]. *)
Definition drag_pan (self : PolarAxes) (button : Z) (key : option string)
    (x y : float64) : result PolarAxes :=
  match _pan_start self with
  | None => Raise (AttributeError "_pan_start"%string)
  | Some p =>
      if String.eqb (Bunch.mode p) "drag_r_labels"%string then
        let start := Bunch.trans_inverse p (Bunch.x p, Bunch.y p) in
        let startt := fst start in
        let cur := Bunch.trans_inverse p (x, y) in
        let t := fst cur in
        let dt0 := t - startt in
        let dt1 := startt - t in
        if Np.abs dt1 <? Np.abs dt0 then Raise (NameError "sign"%string)
        else
          let dt := dt0 * Fin (-1) in
          let dt := (dt / Np.pi) * Fin 180 in
          let rpad := Affine2D.to_values_5 (_r_label1_position self) in
          Ok (with_r_labels self
                (Affine2D.translate (Bunch.r_label_angle p - dt) rpad
                   (Affine2D.clear (_r_label1_position self)))
                (Affine2D.translate (Bunch.r_label_angle p - dt) (- rpad)
                   (Affine2D.clear (_r_label2_position self))))
      else if String.eqb (Bunch.mode p) "zoom"%string then
        let start := Bunch.trans_inverse p (Bunch.x p, Bunch.y p) in
        let startr := snd start in
        let cur := Bunch.trans_inverse p (x, y) in
        let r := snd cur in
        let dr := r - startr in
        let scale := r / startr in
        Ok (set_rmax self (Bunch.rmax p / scale))
      else Ok self
  end.

(** ** The specification's wording of the drag-label delta *)

(** The angular delta as the specification words it: of the two directions
    around the circle from [startt] to [t], the shorter one. *)
Definition wrap_aware_delta (startt t : R) : R :=
  let d := (t - startt)%R in
  let d' := if Rlt_dec 0 d then (d - 2 * PI)%R else (d + 2 * PI)%R in
  if Rlt_dec (Rabs d') (Rabs d) then d' else d.

(** The label anchor the specification asks for: the delta is negated,
    converted to degrees and subtracted from the starting anchor angle. *)
Definition spec_r_label_angle (start_angle startt t : R) : R :=
  (start_angle - (- wrap_aware_delta startt t) / PI * 180)%R.

(** ** Auxiliary definitions for the statements *)

(** The image of one row when nothing is masked. *)
Definition project_row (row : point) : point :=
  (snd row * Np.cos (fst row), snd row * Np.sin (fst row)).

(** [scale(s)] followed by [translate(0.5, 0.5)]. *)
Definition scale_then_translate (s : float64) : Affine2D.t :=
  Affine2D.translate (Fin (1/2)) (Fin (1/2))
    (Affine2D.scale s s Affine2D.identity).

(** ** Example objects *)

(** An axes whose view-limits box has the given radial bounds; the label
    anchors are the ones [_set_lim_and_transforms] installs. *)
Definition axes_with_chain (tD tDi : Bbox.t -> point -> point)
    (rmin rmax : float64) : PolarAxes :=
  mkPolarAxes (Fin (5/100))
    (Bbox.make (Fin 0) rmin (Fin (2 * PI)) rmax)
    tD tDi
    (Affine2D.translate (Fin (45/2)) (Fin (5/100)) Affine2D.identity)
    (Affine2D.translate (Fin (45/2)) (Fin (5/100)) Affine2D.identity)
    None.

Definition bare_axes : float64 -> float64 -> PolarAxes :=
  axes_with_chain (fun _ p => p) (fun _ p => p).

(** The view limits [rmin = 0], [rmax = 10] over the fixed angular span. *)
Definition limits_0_10 : Bbox.t :=
  Bbox.make (Fin 0) (Fin 0) (Fin (2 * PI)) (Fin 10).

(** A radial segment and an arc, both with interpolation density 4. *)
Definition radial_segment : Path.t :=
  Path.make3 [(Fin 0, Fin 0); (Fin 0, Fin 1)] None 4.

Definition arc_segment : Path.t :=
  Path.make3 [(Fin 0, Fin 1); (Fin 1, Fin 1)] None 4.

(** *** An axes filling the unit square *)

(** The store in which every reference designates an axes with the view
    limits [vl]. *)
Definition unit_square_store (vl : Bbox.t) : Store :=
  fun _ => with_viewLim (bare_axes (Fin 0) (Fin 0)) vl.

(** [transData] when the radial scale is the identity and the axes box is
    the unit square: the projection aware of [rmin], then the radial affine
    scale; and its inverse: the inverse of the affine scale, then the inverse
    projection. *)
Definition unit_square_transData (vl : Bbox.t) (p : point) : point :=
  let q := hd p (PolarTransform_transform (unit_square_store vl)
                   (mkPolarTransform (Some 0%nat)) [IdentityTransform p]) in
  match fst (PolarAffine_get_matrix (PolarAffine_init IdentityTransform vl)) with
  | Some m => Affine2D.transform_point m q
  | None => q
  end.

Definition unit_square_transData_inverted (vl : Bbox.t) (p : point) : point :=
  let s := Fin (1/2) / (Bbox.ymax vl - Bbox.ymin vl) in
  let q := ((fst p - Fin (1/2)) / s, (snd p - Fin (1/2)) / s) in
  hd q (InvertedPolarTransform_transform (unit_square_store vl)
          (mkInvertedPolarTransform (Some 0%nat)) [q]).

Definition unit_square_axes : float64 -> float64 -> PolarAxes :=
  axes_with_chain unit_square_transData unit_square_transData_inverted.

Definition limits_0 (rmax : R) : Bbox.t :=
  Bbox.make (Fin 0) (Fin 0) (Fin (2 * PI)) (Fin rmax).

(** ** [PolarAxes.set_rgrids] *)

(** [np.minimum] on two values, and [ndarray.min()]: both propagate [NaN];
    the minimum of an empty array does not exist ([ValueError]). *)
Definition is_nan (a : float64) : bool :=
  match a with NaN => true | _ => false end.

Definition np_minimum (a b : float64) : float64 :=
  if is_nan a || is_nan b then NaN else if b <? a then b else a.

Definition ndarray_min (a : list float64) : option float64 :=
  match a with
  | [] => None
  | v :: rest => Some (fold_left np_minimum rest v)
  end.

(** The outcome of [set_rgrids]: it returns, or raises [ValueError]. *)
Inductive rgrids_result (A : Type) : Type :=
| Returned (a : A)
| ValueError.
Arguments Returned {A} a.
Arguments ValueError {A}.

Definition with_rpad (self : PolarAxes) (rpad : float64) : PolarAxes :=
  mkPolarAxes rpad (viewLim self) (transData self) (transData_inverted self)
    (_r_label1_position self) (_r_label2_position self) (_pan_start self).

Section SetRgrids.

(** The radial axis object and what [set_rgrids] asks of it and of the base
    class [Axes], none of which is among the sources: [set_yticks] records
    the ticks and may move the view limits; the other calls act on the axis
    alone. *)
Variables YAxis Kwargs Gridlines Ticklabels : Type.
Variable set_yticks : list float64 -> YAxis * Bbox.t -> YAxis * Bbox.t.
Variable set_yticklabels : list string -> YAxis -> YAxis.
Variable set_major_formatter : string -> YAxis -> YAxis.
Variable update_ticklabels : Kwargs -> YAxis -> YAxis.
Variable get_gridlines : YAxis -> Gridlines.
Variable get_ticklabels : YAxis -> Ticklabels.

Definition set_rgrids (self : PolarAxes) (yaxis : YAxis)
    (radii : list float64) (labels : option (list string))
    (angle rpad : option float64) (fmt : option string) (kwargs : Kwargs)
    : rgrids_result (PolarAxes * YAxis * (Gridlines * Ticklabels)) :=
  match ndarray_min radii with
  | None => ValueError
  | Some rmin =>
      if rmin <=? Fin 0 then ValueError
      else
        let '(yaxis, limits) := set_yticks radii (yaxis, viewLim self) in
        let self := with_viewLim self limits in
        let yaxis :=
          match labels, fmt with
          | Some labels, _ => set_yticklabels labels yaxis
          | None, Some fmt => set_major_formatter fmt yaxis
          | None, None => yaxis
          end in
        let angle :=
          match angle with
          | Some angle => angle
          | None => Affine2D.to_values_4 (_r_label1_position self)
          end in
        let self :=
          match rpad with
          | Some rpad => with_rpad self rpad
          | None => self
          end in
        let rmax := get_rmax self in
        let self :=
          with_r_labels self
            (Affine2D.translate angle (_rpad self * rmax)
               (Affine2D.clear (_r_label1_position self)))
            (Affine2D.translate angle (- _rpad self * rmax)
               (Affine2D.clear (_r_label2_position self))) in
        let yaxis := update_ticklabels kwargs yaxis in
        Returned (self, yaxis, (get_gridlines yaxis, get_ticklabels yaxis))
  end.

End SetRgrids.

(** ** Sequences of gesture calls *)

(** The pointer moves of one gesture, as the event source delivers them:
    button, key and position of each [drag_pan] call. *)
Definition move : Type := (Z * option string * point)%type.

(** [drag_pan] called for each move in turn; the first exception ends the
    run. *)
Fixpoint drag_pans (self : PolarAxes) (moves : list move) : result PolarAxes :=
  match moves with
  | [] => Ok self
  | (button, key, (x, y)) :: rest =>
      match drag_pan self button key x y with
      | Ok self' => drag_pans self' rest
      | Raise e => Raise e
      end
  end.

(** A whole gesture: [start_pan], the moves, [end_pan]. *)
Definition gesture (self : PolarAxes) (x0 y0 : float64) (button0 : Z)
    (moves : list move) : result PolarAxes :=
  match drag_pans (start_pan self x0 y0 button0) moves with
  | Ok self' => end_pan self'
  | Raise e => Raise e
  end.

(** ** Auxiliary definition for the statements on bound transforms *)


(** * Properties *)

(** ** Facts about the number model *)

(** Case analysis on every real comparison left in the goal. *)
Ltac np_cases :=
  repeat match goal with
    | |- context [Rlt_dec ?a ?b] => destruct (Rlt_dec a b)
    | |- context [Rle_dec ?a ?b] => destruct (Rle_dec a b)
    | |- context [Req_dec_T ?a ?b] => destruct (Req_dec_T a b)
    end.

Ltac np_simpl :=
  cbv beta iota zeta delta
      [Np.add Np.sub Np.neg Np.mul Np.div Np.abs Np.sqrt Np.cos Np.sin
       Np.arccos Np.lt Np.le Np.gt Np.ge Np.eq Np.ne Np.where_ Np.pi
       Np.inf_of_sign fst snd].

(** Evaluation: settle every comparison that linear arithmetic decides. *)
Ltac np_branch :=
  match goal with
  | |- context [Rlt_dec ?a ?b] => destruct (Rlt_dec a b); try (exfalso; lra)
  | |- context [Rle_dec ?a ?b] => destruct (Rle_dec a b); try (exfalso; lra)
  | |- context [Req_dec_T ?a ?b] => destruct (Req_dec_T a b); try (exfalso; lra)
  end.

Ltac np_eval := repeat (np_simpl; cbn [negb]; try np_branch).

(** Decides a closed comparison of the model. *)
Ltac np_decide :=
  np_simpl; np_cases; cbn [negb];
  first [ reflexivity | discriminate | exfalso; lra ].

Lemma lt_sub_zero (r rmin : float64) :
  (r <? rmin) = true -> (r - rmin <? Fin 0) = true.
Proof.
  destruct r as [a| | |], rmin as [b| | |]; cbn; try discriminate; auto.
  np_cases; intros; try reflexivity; try discriminate; lra.
Qed.

Lemma gt_zero_not_le (a : float64) :
  (a >? Fin 0) = true -> (a <=? Fin 0) = false.
Proof.
  destruct a as [v| | |]; cbn; try discriminate; auto.
  np_cases; intros; try reflexivity; try discriminate; lra.
Qed.

(** The two differences compared by [drag_pan] have the same magnitude
    (negation is exact in floating point too). *)
Lemma abs_sub_swap (t startt : float64) :
  (Np.abs (startt - t) <? Np.abs (t - startt)) = false.
Proof.
  destruct t as [a| | |], startt as [b| | |]; cbn; try reflexivity.
  replace (b + - a)%R with (- (a + - b))%R by ring.
  rewrite Rabs_Ropp.
  destruct (Rlt_dec _ _) as [Hlt|]; [exfalso; lra | reflexivity].
Qed.

Lemma ne_zero_zero : (Fin 0 !=? Fin 0) = false.
Proof.
  unfold Np.ne, Np.eq.
  destruct (Req_dec_T 0 0) as [_|n]; [reflexivity | now destruct n].
Qed.

(** ** The forward projection *)

Lemma transform_unbound (axes : Store) (tr : array) :
  PolarTransform_transform axes (mkPolarTransform None) tr = map project_row tr.
Proof.
  unfold PolarTransform_transform; cbn [PolarTransform_axis].
  now rewrite ne_zero_zero.
Qed.

Lemma transform_rmin_zero (axes : Store) (a : AxesRef) (tr : array) :
  Bbox.ymin (viewLim (axes a)) = Fin 0 ->
  PolarTransform_transform axes (mkPolarTransform (Some a)) tr
  = map project_row tr.
Proof.
  intros Hz. unfold PolarTransform_transform; cbn [PolarTransform_axis].
  now rewrite Hz, ne_zero_zero.
Qed.

(** C7: the projection with no bound axes maps every row [(t, r)] to
    [(r * cos t, r * sin t)], exactly as a projection bound to an axes whose
    [rmin] is 0 does; no row is masked, so a finite row has a finite image. *)
Theorem C7_unbound_behaves_as_rmin_zero (axes : Store) (tr : array) :
  PolarTransform_transform axes (mkPolarTransform None) tr
    = map (fun row => (snd row * Np.cos (fst row), snd row * Np.sin (fst row))) tr
  /\ (forall a, Bbox.ymin (viewLim (axes a)) = Fin 0 ->
        PolarTransform_transform axes (mkPolarTransform None) tr
        = PolarTransform_transform axes (mkPolarTransform (Some a)) tr)
  /\ (forall i t r, nth_error tr i = Some (Fin t, Fin r) ->
        nth_error (PolarTransform_transform axes (mkPolarTransform None) tr) i
        = Some (Fin (r * Rtrigo_def.cos t), Fin (r * Rtrigo_def.sin t))).
Proof.
  rewrite transform_unbound. split; [reflexivity | split].
  - intros a Hz. now rewrite transform_rmin_zero.
  - intros i t r Hi. rewrite nth_error_map.
    unfold array, point in *. rewrite Hi. reflexivity.
Qed.

Lemma C7_unbound_witness :
  let axes : Store := fun _ => bare_axes (Fin 0) (Fin 10) in
  let tr := [(Fin 0, Fin (-1)); (Fin PI, Fin 2)] in
  Bbox.ymin (viewLim (axes 0%nat)) = Fin 0
  /\ PolarTransform_transform axes (mkPolarTransform None) tr
     = PolarTransform_transform axes (mkPolarTransform (Some 0%nat)) tr
  /\ nth_error (PolarTransform_transform axes (mkPolarTransform None) tr) 0
     = Some (Fin (-1 * Rtrigo_def.cos 0), Fin (-1 * Rtrigo_def.sin 0)).
Proof.
  intros axes tr.
  destruct (C7_unbound_behaves_as_rmin_zero axes tr) as (_ & Hb & Hn).
  split; [reflexivity | split].
  - apply (Hb 0%nat). reflexivity.
  - apply (Hn 0%nat 0%R (-1)%R). reflexivity.
Defined.

(** C2 as stated fails: bound to an axes whose [rmin] is 0, the projection
    does not mask the row [(0, -1)] although [-1 < rmin]. *)
Lemma C2_counterexample_rmin_zero :
  let axes : Store := fun _ => bare_axes (Fin 0) (Fin 10) in
  (Fin (-1) <? Bbox.ymin (viewLim (axes 0%nat))) = true
  /\ PolarTransform_transform axes (mkPolarTransform (Some 0%nat))
       [(Fin 0, Fin (-1))]
     = [(Fin (-1), Fin 0)]
  /\ PolarTransform_transform axes (mkPolarTransform (Some 0%nat))
       [(Fin 0, Fin (-1))]
     <> [(NaN, NaN)].
Proof.
  intros axes.
  assert (E : PolarTransform_transform axes (mkPolarTransform (Some 0%nat))
                [(Fin 0, Fin (-1))] = [(Fin (-1), Fin 0)]).
  { rewrite transform_rmin_zero by reflexivity. unfold project_row. cbn.
    rewrite cos_0, sin_0. repeat f_equal; f_equal; lra. }
  split; [| split].
  - cbn. destruct (Rlt_dec (-1) 0); [reflexivity | lra].
  - exact E.
  - rewrite E. discriminate.
Qed.

(** C2 (amended): bound to an axes whose [rmin] is not 0, the projection
    yields [NaN] in both coordinates of every row whose radius is below
    [rmin]. *)
Theorem C2_below_rmin_is_nan (axes : Store) (a : AxesRef) (tr : array)
    (i : nat) (t r : float64) :
  (Bbox.ymin (viewLim (axes a)) !=? Fin 0) = true ->
  nth_error tr i = Some (t, r) ->
  (r <? Bbox.ymin (viewLim (axes a))) = true ->
  nth_error (PolarTransform_transform axes (mkPolarTransform (Some a)) tr) i
  = Some (NaN, NaN).
Proof.
  intros Hne Hi Hlt. unfold PolarTransform_transform.
  cbn [PolarTransform_axis]. cbv zeta. rewrite Hne.
  rewrite nth_error_map. unfold array, point in *. rewrite Hi.
  cbn [option_map fst snd]. rewrite (lt_sub_zero _ _ Hlt). reflexivity.
Qed.

Lemma C2_below_rmin_witness :
  let axes : Store := fun _ => bare_axes (Fin 1) (Fin 10) in
  nth_error (PolarTransform_transform axes (mkPolarTransform (Some 0%nat))
               [(Fin 0, Fin (1/2))]) 0
  = Some (NaN, NaN).
Proof.
  intros axes.
  apply (C2_below_rmin_is_nan axes 0%nat [(Fin 0, Fin (1/2))] 0 (Fin 0) (Fin (1/2))).
  - cbn. np_decide.
  - reflexivity.
  - cbn. np_decide.
Defined.

(** ** Inversion *)

Lemma PolarTransform_inverted_axis (self : PolarTransform) :
  InvertedPolarTransform_axis (PolarTransform_inverted self)
  = PolarTransform_axis self.
Proof. reflexivity. Qed.

(** C3 (evaluation of the code): inverting the forward projection keeps its
    axes, but inverting the inverse projection bound to an axes [a] returns
    a forward projection bound to no axes at all, and so does inverting a
    bound forward projection twice. *)
Theorem C3_inverted_drops_axis (a : AxesRef) :
  InvertedPolarTransform_axis
    (PolarTransform_inverted (mkPolarTransform (Some a))) = Some a
  /\ InvertedPolarTransform_inverted (mkInvertedPolarTransform (Some a))
     = mkPolarTransform None
  /\ PolarTransform_axis
       (InvertedPolarTransform_inverted
          (mkInvertedPolarTransform (Some a))) <> Some a
  /\ InvertedPolarTransform_inverted
       (PolarTransform_inverted (mkPolarTransform (Some a)))
     <> mkPolarTransform (Some a).
Proof.
  repeat split; cbn; discriminate.
Qed.

(** A consequence on values: with [rmin = 1], the forward projection bound to
    the axes masks the row [(0, 1/2)], the one obtained by inverting twice
    does not. *)
Example inverted_twice_differs :
  let axes : Store := fun _ => bare_axes (Fin 1) (Fin 10) in
  let forward := mkPolarTransform (Some 0%nat) in
  PolarTransform_transform axes forward [(Fin 0, Fin (1/2))] = [(NaN, NaN)]
  /\ PolarTransform_transform axes
       (InvertedPolarTransform_inverted (PolarTransform_inverted forward))
       [(Fin 0, Fin (1/2))]
     = [(Fin (1/2), Fin 0)].
Proof.
  intros axes forward. split.
  - unfold PolarTransform_transform. cbn. np_eval. reflexivity.
  - cbn [InvertedPolarTransform_inverted]. rewrite transform_unbound.
    unfold project_row. cbn. rewrite cos_0, sin_0.
    f_equal. f_equal; f_equal; ring.
Qed.

(** ** Forward, then inverse *)

Lemma sqrt_sum_squares_polar (r t : R) :
  (0 <= r)%R ->
  R_sqrt.sqrt (r * Rtrigo_def.cos t * (r * Rtrigo_def.cos t)
               + r * Rtrigo_def.sin t * (r * Rtrigo_def.sin t)) = r.
Proof.
  intros Hr.
  replace (r * Rtrigo_def.cos t * (r * Rtrigo_def.cos t)
           + r * Rtrigo_def.sin t * (r * Rtrigo_def.sin t))%R
    with ((r * r) * ((Rtrigo_def.sin t)² + (Rtrigo_def.cos t)²))%R
    by (unfold Rsqr; ring).
  rewrite sin2_cos2, Rmult_1_r. now apply sqrt_square.
Qed.

(** The angle recovered by [arccos] and the sign of [y]. *)
Lemma recover_angle (t : R) :
  (0 <= t < 2 * PI)%R ->
  (if Rlt_dec (Rtrigo_def.sin t) 0
   then (2 * PI + - acos (Rtrigo_def.cos t))%R
   else acos (Rtrigo_def.cos t)) = t.
Proof.
  intros [H0 H2]. destruct (Rle_dec t PI) as [Hle|Hgt].
  - assert (0 <= Rtrigo_def.sin t)%R by (apply sin_ge_0; lra).
    destruct (Rlt_dec _ _); [lra|]. apply acos_cos. lra.
  - assert (Rtrigo_def.sin t < 0)%R by (apply sin_lt_0; lra).
    destruct (Rlt_dec _ _); [|lra].
    replace (Rtrigo_def.cos t) with (Rtrigo_def.cos (2 * PI - t)).
    + rewrite acos_cos by lra. ring.
    + rewrite <- (cos_neg t).
      replace (2 * PI - t)%R with (- t + 2 * INR 1 * PI)%R by (simpl; ring).
      apply cos_period.
Qed.

(** The inverse projection, reading no radial offset, on the image of a row
    of positive radius and angle in [[0, 2 pi)]. *)
Lemma inverse_of_projected (axes : Store) (axis : option AxesRef) (t r : R) :
  match axis with
  | Some a => Bbox.ymin (viewLim (axes a)) = Fin 0
  | None => True
  end ->
  (0 <= t < 2 * PI)%R -> (0 < r)%R ->
  InvertedPolarTransform_transform axes (mkInvertedPolarTransform axis)
    [(Fin (r * Rtrigo_def.cos t), Fin (r * Rtrigo_def.sin t))]
  = [(Fin t, Fin r)].
Proof.
  intros Haxis Ht Hr.
  unfold InvertedPolarTransform_transform.
  cbn [map fst snd InvertedPolarTransform_axis Np.mul Np.add].
  assert (Hsq : Np.sqrt
            (Fin (r * Rtrigo_def.cos t * (r * Rtrigo_def.cos t)
                  + r * Rtrigo_def.sin t * (r * Rtrigo_def.sin t))) = Fin r).
  { cbn. destruct (Rlt_dec _ 0) as [Hn|_].
    - exfalso. nra.
    - f_equal. apply sqrt_sum_squares_polar; lra. }
  rewrite Hsq.
  assert (Hoff : match axis with
                 | Some a => Fin r + Bbox.ymin (viewLim (axes a))
                 | None => Fin r
                 end = Fin r).
  { destruct axis as [a|]; [rewrite Haxis; cbn; f_equal; lra | reflexivity]. }
  rewrite Hoff. np_simpl.
  destruct (Req_dec_T r 0) as [|_]; [lra|].
  replace (r * Rtrigo_def.cos t / r)%R with (Rtrigo_def.cos t) by (field; lra).
  destruct (COS_bound t) as [Hc1 Hc2].
  destruct (Rle_dec (-1) (Rtrigo_def.cos t)); [|lra].
  destruct (Rle_dec (Rtrigo_def.cos t) 1); [|lra].
  pose proof (recover_angle t Ht) as Hrec.
  destruct (Rlt_dec (Rtrigo_def.sin t) 0) as [Hneg|Hpos];
    destruct (Rlt_dec (r * Rtrigo_def.sin t) 0) as [Hneg'|Hpos'];
    try (exfalso; nra); now rewrite Hrec.
Qed.


Lemma acos_half : acos (1 / 2) = (PI / 3)%R.
Proof.
  rewrite <- cos_PI3. apply acos_cos.
  pose proof PI_RGT_0. lra.
Qed.

(** The inverse projection on the single point [(1, 0)] when the bound axes
    has [rmin = 1]: the offset is added to the radius before the angle is
    taken, so the angle is [arccos (1 / 2)]. *)
Lemma inverse_of_unit_x_rmin_one :
  InvertedPolarTransform_transform (fun _ => bare_axes (Fin 1) (Fin 10))
    (mkInvertedPolarTransform (Some 0%nat)) [(Fin 1, Fin 0)]
  = [(Fin (PI / 3), Fin 2)].
Proof.
  unfold InvertedPolarTransform_transform. cbn. np_simpl.
  replace (1 * 1 + 0 * 0)%R with 1%R by ring. rewrite sqrt_1.
  np_eval.
  replace (1 / (1 + 1))%R with (1 / 2)%R by lra.
  replace (1 + 1)%R with 2%R by ring.
  now rewrite acos_half.
Qed.

(** C1 (evaluation of the code): with [rmin = 1], the row
    [(theta, r) = (0, 2)] is projected to [(1, 0)] and the inverse projection
    bound to the same axes returns [(pi / 3, 2)]: the radius is recovered,
    the angle is not. *)
Theorem C1_roundtrip_loses_angle :
  let axes : Store := fun _ => bare_axes (Fin 1) (Fin 10) in
  let forward := mkPolarTransform (Some 0%nat) in
  PolarTransform_transform axes forward [(Fin 0, Fin 2)] = [(Fin 1, Fin 0)]
  /\ InvertedPolarTransform_transform axes (PolarTransform_inverted forward)
       (PolarTransform_transform axes forward [(Fin 0, Fin 2)])
     = [(Fin (PI / 3), Fin 2)]
  /\ InvertedPolarTransform_transform axes (PolarTransform_inverted forward)
       (PolarTransform_transform axes forward [(Fin 0, Fin 2)])
     <> [(Fin 0, Fin 2)].
Proof.
  intros axes forward.
  assert (E : PolarTransform_transform axes forward [(Fin 0, Fin 2)]
              = [(Fin 1, Fin 0)]).
  { unfold PolarTransform_transform. cbn. np_eval. cbn.
    rewrite cos_0, sin_0. repeat f_equal; f_equal; ring. }
  rewrite E. split; [reflexivity|].
  change (PolarTransform_inverted forward)
    with (mkInvertedPolarTransform (Some 0%nat)).
  unfold axes. rewrite inverse_of_unit_x_rmin_one. split; [reflexivity|].
  intros [= H]. pose proof PI_RGT_0. lra.
Qed.

(** ** The radius locator *)

Lemma RadialLocator_call_spec {B : Type} `{Locator B}
    (self : RadialLocator B) (x : float64) :
  In x (RadialLocator_call self)
  <-> In x (locator_call (base self)) /\ (x >? Fin 0) = true.
Proof.
  unfold RadialLocator_call.
  exact (filter_In (fun v => v >? Fin 0) x (locator_call (base self))).
Qed.

(** C10: whatever the underlying locator proposes, every value returned by
    the radius locator's tick query is greater than 0, hence none is [<= 0]
    (and none is [NaN]). *)
Theorem C10_radial_ticks_positive {B : Type} `{Locator B}
    (self : RadialLocator B) :
  Forall (fun x => (x >? Fin 0) = true /\ (x <=? Fin 0) = false /\ x <> NaN)
         (RadialLocator_call self).
Proof.
  apply Forall_forall. intros x Hx.
  apply RadialLocator_call_spec in Hx. destruct Hx as [_ Hpos].
  split; [exact Hpos | split].
  - now apply gt_zero_not_le.
  - intros ->. discriminate Hpos.
Qed.

(** The candidates -1, 0, NaN are dropped and 1, +inf, 2 are kept, in
    order. *)
Example RadialLocator_call_example :
  RadialLocator_call
    (mkRadialLocator [Fin (-1); Fin 0; Fin 1; NaN; PInf; NInf; Fin 2])
  = [Fin 1; PInf; Fin 2].
Proof.
  unfold RadialLocator_call. cbn. np_eval. reflexivity.
Qed.

(** The view-limit adjustment forces the lower bound to 0. *)
Lemma RadialLocator_view_limits_lower {B : Type} `{Locator B}
    (self : RadialLocator B) (vmin vmax : float64) :
  fst (RadialLocator_view_limits self vmin vmax) = Fin 0.
Proof.
  unfold RadialLocator_view_limits.
  now destruct (locator_view_limits (base self) vmin vmax).
Qed.

(** ** The radial affine scale *)

Lemma scale_then_translate_fin (s : R) :
  scale_then_translate (Fin s)
  = Affine2D.make (Fin s) (Fin 0) (Fin (1/2))
                  (Fin 0) (Fin s) (Fin (1/2))
                  (Fin 0) (Fin 0) (Fin 1).
Proof.
  unfold scale_then_translate, Affine2D.translate, Affine2D.scale,
    Affine2D.dot, Affine2D.identity. cbn.
  f_equal; f_equal; ring.
Qed.

Lemma get_matrix_invalid (self : PolarAffine) :
  _invalid self = true ->
  fst (PolarAffine_get_matrix self)
  = Some (scale_then_translate
            (Fin (1/2) /
             (snd (_scale_transform self
                     (Bbox.x1 (_limits self), Bbox.y1 (_limits self)))
              - snd (_scale_transform self
                       (Bbox.x0 (_limits self), Bbox.y0 (_limits self)))))).
Proof.
  intros Hinv. unfold PolarAffine_get_matrix. rewrite Hinv. reflexivity.
Qed.

(** Once computed, the matrix is served from the cache. *)
Lemma get_matrix_cached (self : PolarAffine) :
  let self' := snd (PolarAffine_get_matrix self) in
  _invalid self = true ->
  PolarAffine_get_matrix self' = (fst (PolarAffine_get_matrix self), self').
Proof.
  intros self' Hinv. unfold self', PolarAffine_get_matrix.
  rewrite Hinv. reflexivity.
Qed.

Lemma get_matrix_limits_0_10 :
  fst (PolarAffine_get_matrix (PolarAffine_init IdentityTransform limits_0_10))
  = Some (Affine2D.make (Fin (1/20)) (Fin 0) (Fin (1/2))
                        (Fin 0) (Fin (1/20)) (Fin (1/2))
                        (Fin 0) (Fin 0) (Fin 1)).
Proof.
  rewrite get_matrix_invalid by reflexivity.
  cbn [PolarAffine_init _scale_transform _limits IdentityTransform limits_0_10
       Bbox.x0 Bbox.y0 Bbox.x1 Bbox.y1 fst snd].
  replace (Fin (1/2) / (Fin 10 - Fin 0)) with (Fin (1/20)).
  - now rewrite scale_then_translate_fin.
  - np_eval. f_equal. field.
Qed.

(** C6: the matrix of a radial affine scale is [scale (0.5 / yscale)]
    followed by [translate (0.5, 0.5)], where [yscale] is the difference of
    the images of the upper and lower radial view limits under the upstream
    scale transform.  With [rmin = 0], [rmax = 10] and the identity upstream
    scale, every projected point of radius 10 lands at distance 0.5 from the
    centre [(0.5, 0.5)], and every projected point of radius 0 on the
    centre. *)
Theorem C6_radial_affine_matrix :
  (forall (scale_transform : point -> point) (limits : Bbox.t),
     let ymax' := snd (scale_transform (Bbox.x1 limits, Bbox.ymax limits)) in
     let ymin' := snd (scale_transform (Bbox.x0 limits, Bbox.ymin limits)) in
     let yscale := ymax' - ymin' in
     fst (PolarAffine_get_matrix (PolarAffine_init scale_transform limits))
     = Some (Affine2D.translate (Fin (1/2)) (Fin (1/2))
               (Affine2D.scale (Fin (1/2) / yscale) (Fin (1/2) / yscale)
                  Affine2D.identity)))
  /\ (exists m : Affine2D.t,
        fst (PolarAffine_get_matrix
               (PolarAffine_init IdentityTransform limits_0_10)) = Some m
        /\ (forall theta : R,
              Affine2D.transform_point m (project_row (Fin theta, Fin 10))
              = (Fin (1/2 + 1/2 * Rtrigo_def.cos theta),
                 Fin (1/2 + 1/2 * Rtrigo_def.sin theta))
              /\ ((1/2 * Rtrigo_def.cos theta)² + (1/2 * Rtrigo_def.sin theta)²
                  = (1/2)²)%R)
        /\ (forall theta : R,
              Affine2D.transform_point m (project_row (Fin theta, Fin 0))
              = (Fin (1/2), Fin (1/2)))).
Proof.
  split.
  - intros scale_transform limits ymax' ymin' yscale.
    now rewrite get_matrix_invalid.
  - eexists. split; [apply get_matrix_limits_0_10 | split].
    + intros theta. split.
      * unfold Affine2D.transform_point, project_row. cbn.
        f_equal; f_equal; field.
      * replace ((1/2 * Rtrigo_def.cos theta)² + (1/2 * Rtrigo_def.sin theta)²)%R
          with ((1/2)² * ((Rtrigo_def.sin theta)² + (Rtrigo_def.cos theta)²))%R
          by (unfold Rsqr; ring).
        rewrite sin2_cos2. ring.
    + intros theta. unfold Affine2D.transform_point, project_row. cbn.
      f_equal; f_equal; field.
Qed.

(** ** Paths *)

Lemma PolarTransform_transform_length (axes : Store) (self : PolarTransform)
    (tr : array) :
  length (PolarTransform_transform axes self tr) = length tr.
Proof.
  unfold PolarTransform_transform.
  destruct (_ !=? _); apply length_map.
Qed.

Lemma interpolate_from_length (rest : array) (a0 : point) (steps : nat) :
  length (Path.interpolate_from a0 rest steps)
  = (length rest * (1 + (steps - 1)) + 1)%nat.
Proof.
  revert a0. induction rest as [|a1 rest IH]; intros a0; cbn [Path.interpolate_from].
  - reflexivity.
  - cbn [length]. rewrite length_app, length_map, length_seq, IH. lia.
Qed.

Lemma interpolated_longer (path : Path.t) (steps : nat) :
  (2 <= length (Path.vertices path))%nat -> (1 < steps)%nat ->
  (length (Path.vertices path)
   < length (Path.vertices (Path.interpolated path steps)))%nat.
Proof.
  intros Hlen Hsteps. unfold Path.interpolated. cbn [Path.vertices Path.make].
  destruct (Path.vertices path) as [|a0 rest]; cbn [length] in *; [lia|].
  rewrite interpolate_from_length. nia.
Qed.

(** C8: a path of exactly two vertices with equal angles is projected point
    by point, so it keeps its two vertices; a path of three or more
    vertices, or of two vertices with different angles, is interpolated
    first, and has more vertices afterwards when the interpolation step
    count exceeds 1. *)
Theorem C8_transform_path_vertex_count (axes : Store) (self : PolarTransform)
    (path : Path.t) :
  (forall v0 v1,
     Path.vertices path = [v0; v1] -> (fst v0 ==? fst v1) = true ->
     PolarTransform_transform_path axes self path
     = Path.make (PolarTransform_transform axes self (Path.vertices path))
                 (Path.codes path)
     /\ length (Path.vertices (PolarTransform_transform_path axes self path))
        = length (Path.vertices path))
  /\ ((3 <= length (Path.vertices path))%nat
      \/ (exists v0 v1, Path.vertices path = [v0; v1]
                        /\ (fst v0 ==? fst v1) = false) ->
      (1 < Path._interpolation_steps path)%nat ->
      Path.vertices (PolarTransform_transform_path axes self path)
      = PolarTransform_transform axes self
          (Path.vertices
             (Path.interpolated path (Path._interpolation_steps path)))
      /\ (length (Path.vertices path)
          < length (Path.vertices
                      (PolarTransform_transform_path axes self path)))%nat).
Proof.
  split.
  - intros v0 v1 Hv Heq. unfold PolarTransform_transform_path.
    rewrite Hv, Heq. split; [reflexivity|].
    cbn [Path.vertices Path.make]. apply PolarTransform_transform_length.
  - intros Hshape Hsteps.
    assert (Hbranch :
      PolarTransform_transform_path axes self path
      = Path.make
          (PolarTransform_transform axes self
             (Path.vertices
                (Path.interpolated path (Path._interpolation_steps path))))
          (Path.codes
             (Path.interpolated path (Path._interpolation_steps path)))).
    { unfold PolarTransform_transform_path.
      destruct Hshape as [H3 | (v0 & v1 & Hv & Hne)].
      - destruct (Path.vertices path) as [|a [|b [|c l]]];
          cbn [length] in H3; try lia; reflexivity.
      - now rewrite Hv, Hne. }
    rewrite Hbranch. cbn [Path.vertices Path.make]. split; [reflexivity|].
    rewrite PolarTransform_transform_length.
    apply interpolated_longer; [|exact Hsteps].
    destruct Hshape as [H3 | (v0 & v1 & Hv & _)]; [lia | now rewrite Hv].
Qed.

Lemma C8_transform_path_witness :
  let axes : Store := fun _ => bare_axes (Fin 0) (Fin 10) in
  let self := mkPolarTransform (Some 0%nat) in
  length (Path.vertices (PolarTransform_transform_path axes self radial_segment))
  = 2%nat
  /\ (2 < length (Path.vertices
                    (PolarTransform_transform_path axes self arc_segment)))%nat.
Proof.
  intros axes self. split.
  - apply (proj1 (C8_transform_path_vertex_count axes self radial_segment)
             (Fin 0, Fin 0) (Fin 0, Fin 1)).
    + reflexivity.
    + cbn. np_decide.
  - apply (proj2 (C8_transform_path_vertex_count axes self arc_segment)).
    + right. exists (Fin 0, Fin 1), (Fin 1, Fin 1). split; [reflexivity|].
      cbn. np_decide.
    + cbn. lia.
Defined.

Example arc_segment_resampled :
  length (Path.vertices (Path.interpolated arc_segment 4)) = 5%nat.
Proof. reflexivity. Qed.

(** ** The chain of an axes filling the unit square *)

Lemma unit_square_transData_fin (rmax t r : R) :
  (0 < rmax)%R ->
  unit_square_transData (limits_0 rmax) (Fin t, Fin r)
  = (Fin (1/2 / rmax * (r * Rtrigo_def.cos t) + 1/2),
     Fin (1/2 / rmax * (r * Rtrigo_def.sin t) + 1/2)).
Proof.
  intros Hmax. unfold unit_square_transData.
  rewrite transform_rmin_zero by reflexivity.
  rewrite get_matrix_invalid by reflexivity.
  cbn [PolarAffine_init _scale_transform _limits IdentityTransform limits_0
       Bbox.x0 Bbox.y0 Bbox.x1 Bbox.y1 fst snd map hd project_row].
  replace (Fin (1/2) / (Fin rmax - Fin 0)) with (Fin (1/2 / rmax)).
  - rewrite scale_then_translate_fin. unfold Affine2D.transform_point. cbn.
    f_equal; f_equal; ring.
  - np_simpl. destruct (Req_dec_T (rmax + - 0) 0); [exfalso; lra|].
    f_equal. field. lra.
Qed.

(** On that chain the pointer position of a data point leads back to the
    data point. *)
Lemma unit_square_roundtrip (rmax t r : R) :
  (0 < rmax)%R -> (0 <= t < 2 * PI)%R -> (0 < r)%R ->
  unit_square_transData_inverted (limits_0 rmax)
    (unit_square_transData (limits_0 rmax) (Fin t, Fin r))
  = (Fin t, Fin r).
Proof.
  intros Hmax Ht Hr. rewrite unit_square_transData_fin by assumption.
  unfold unit_square_transData_inverted.
  cbn [limits_0 Bbox.ymax Bbox.ymin Bbox.y0 Bbox.y1 fst snd].
  assert (Hs : Fin (1/2) / (Fin rmax - Fin 0) = Fin (1/2 / rmax)).
  { np_simpl. destruct (Req_dec_T (rmax + - 0) 0); [exfalso; lra|].
    f_equal. field. lra. }
  rewrite Hs.
  assert (Hnz : (1/2 / rmax <> 0)%R).
  { apply Rgt_not_eq. apply Rdiv_lt_0_compat; lra. }
  assert (Hq : forall v : R,
             (Fin (1/2 / rmax * v + 1/2) - Fin (1/2)) / Fin (1/2 / rmax) = Fin v).
  { intros v. np_simpl. destruct (Req_dec_T (1/2 / rmax) 0); [contradiction|].
    f_equal. field. lra. }
  rewrite !Hq.
  change (unit_square_store (Bbox.make (Fin 0) (Fin 0) (Fin (2 * PI)) (Fin rmax)))
    with (unit_square_store (limits_0 rmax)).
  rewrite inverse_of_projected; [reflexivity | reflexivity | assumption | assumption].
Qed.

(** ** The gesture state machine *)

Lemma start_pan_sets_snapshot (self : PolarAxes) (x y : float64) (button : Z) :
  exists p, _pan_start (start_pan self x y button) = Some p
            /\ Bunch.rmax p = get_rmax self
            /\ Bunch.trans_inverse p = transData_inverted self (viewLim self)
            /\ Bunch.r_label_angle p
               = Affine2D.to_values_4 (_r_label1_position self)
            /\ Bunch.x p = x /\ Bunch.y p = y.
Proof. unfold start_pan. eexists. cbn. repeat split. Qed.

Lemma start_pan_button_3 (self : PolarAxes) (x y : float64) :
  exists p, _pan_start (start_pan self x y 3) = Some p
            /\ Bunch.mode p = "zoom"%string.
Proof. unfold start_pan. eexists. cbn. split; reflexivity. Qed.

Lemma end_pan_discards (self : PolarAxes) (p : Bunch.t) :
  _pan_start self = Some p ->
  exists self', end_pan self = Ok self' /\ _pan_start self' = None.
Proof.
  intros Hp. unfold end_pan. rewrite Hp. eexists. split; reflexivity.
Qed.

(** A gesture started with a button other than 1 and 3 does hold a snapshot,
    with the empty mode: its drags return without any change. *)
Lemma drag_pan_after_other_button (self : PolarAxes) (x0 y0 : float64)
    (button0 button : Z) (key : option string) (x y : float64) :
  (button0 =? 1)%Z = false -> (button0 =? 3)%Z = false ->
  drag_pan (start_pan self x0 y0 button0) button key x y
  = Ok (start_pan self x0 y0 button0).
Proof.
  intros H1 H3. unfold drag_pan, start_pan. rewrite H1, H3. reflexivity.
Qed.

(** C9: [drag_pan] on an axes that holds no gesture snapshot raises
    [AttributeError] instead of returning; this is the case before any
    [start_pan], and again after [end_pan] has deleted the snapshot of a
    started gesture. *)
Theorem C9_drag_without_start_raises (self : PolarAxes) (button : Z)
    (key : option string) (x y : float64) :
  (_pan_start self = None ->
   drag_pan self button key x y = Raise (AttributeError "_pan_start"%string)
   /\ end_pan self = Raise (AttributeError "_pan_start"%string))
  /\ (forall x0 y0 button0,
        exists ended,
          end_pan (start_pan self x0 y0 button0) = Ok ended
          /\ drag_pan ended button key x y
             = Raise (AttributeError "_pan_start"%string)).
Proof.
  split.
  - intros Hnone. unfold drag_pan, end_pan. now rewrite Hnone.
  - intros x0 y0 button0. eexists. split; reflexivity.
Qed.

Lemma C9_drag_without_start_witness :
  drag_pan (bare_axes (Fin 0) (Fin 10)) 1 None (Fin 0) (Fin 0)
  = Raise (AttributeError "_pan_start"%string)
  /\ drag_pan (bare_axes (Fin 0) (Fin 10)) 1 None (Fin 0) (Fin 0)
     <> Ok (bare_axes (Fin 0) (Fin 10)).
Proof.
  destruct (proj1 (C9_drag_without_start_raises
                     (bare_axes (Fin 0) (Fin 10)) 1 None (Fin 0) (Fin 0))
              eq_refl) as [Hdrag _].
  split; [exact Hdrag | rewrite Hdrag; discriminate].
Defined.

(** C5: in zoom mode, with a starting radius other than 0, [drag_pan] sets
    the maximum radius to the one of the gesture start divided by
    [r / startr], the two radii being read through the frozen inverse
    transform; a start at [rmax = 10] and radius 5 dragged to radius 10 gives
    [rmax = 5]. *)
Theorem C5_zoom_divides_rmax (self : PolarAxes) (p : Bunch.t) (button : Z)
    (key : option string) (x y : float64) :
  let startr := snd (Bunch.trans_inverse p (Bunch.x p, Bunch.y p)) in
  let r := snd (Bunch.trans_inverse p (x, y)) in
  _pan_start self = Some p ->
  Bunch.mode p = "zoom"%string ->
  (startr !=? Fin 0) = true ->
  drag_pan self button key x y
    = Ok (set_rmax self (Bunch.rmax p / (r / startr)))
  /\ Bbox.y1 (viewLim (set_rmax self (Bunch.rmax p / (r / startr))))
     = Bunch.rmax p / (r / startr)
  /\ (Bunch.rmax p = Fin 10 -> startr = Fin 5 -> r = Fin 10 ->
      drag_pan self button key x y = Ok (set_rmax self (Fin 5))).
Proof.
  intros startr r Hp Hmode _.
  assert (E : drag_pan self button key x y
              = Ok (set_rmax self (Bunch.rmax p / (r / startr)))).
  { unfold drag_pan. rewrite Hp, Hmode. reflexivity. }
  split; [exact E | split; [reflexivity|]].
  intros Hmax Hs Hr. rewrite E, Hmax, Hs, Hr. do 2 f_equal.
  np_eval. f_equal. field.
Qed.

Lemma C5_zoom_witness :
  let ax := unit_square_axes (Fin 0) (Fin 10) in
  let press := unit_square_transData (viewLim ax) (Fin 0, Fin 5) in
  let move := unit_square_transData (viewLim ax) (Fin 0, Fin 10) in
  let started := start_pan ax (fst press) (snd press) 3 in
  get_rmax started = Fin 10
  /\ drag_pan started 3 None (fst move) (snd move)
     = Ok (set_rmax started (Fin 5)).
Proof.
  intros ax press move started.
  pose (p := Bunch.make (get_rmax ax)
               (transData ax (viewLim ax))
               (transData_inverted ax (viewLim ax))
               (Affine2D.to_values_4 (_r_label1_position ax))
               (fst press) (snd press) "zoom"%string).
  assert (Hp : _pan_start started = Some p) by reflexivity.
  assert (Hpi : (0 <= 0 < 2 * PI)%R) by (pose proof PI_RGT_0; lra).
  assert (Hstart : Bunch.trans_inverse p (Bunch.x p, Bunch.y p)
                   = (Fin 0, Fin 5)).
  { cbn [p Bunch.trans_inverse Bunch.x Bunch.y].
    rewrite <- surjective_pairing.
    apply (unit_square_roundtrip 10 0 5); [lra | exact Hpi | lra]. }
  assert (Hmove : Bunch.trans_inverse p (fst move, snd move)
                  = (Fin 0, Fin 10)).
  { cbn [p Bunch.trans_inverse]. rewrite <- surjective_pairing.
    apply (unit_square_roundtrip 10 0 10); [lra | exact Hpi | lra]. }
  split; [reflexivity|].
  apply (C5_zoom_divides_rmax started p 3 None (fst move) (snd move) Hp eq_refl).
  - rewrite Hstart. cbn [snd]. np_decide.
  - reflexivity.
  - now rewrite Hstart.
  - now rewrite Hmove.
Defined.

(** *** Dragging the radial labels *)

Lemma translate_clear_values (m : Affine2D.t) (tx ty : float64) :
  Affine2D.to_values_4 (Affine2D.translate tx ty (Affine2D.clear m)) = tx
  /\ Affine2D.to_values_5 (Affine2D.translate tx ty (Affine2D.clear m)) = ty.
Proof.
  unfold Affine2D.to_values_4, Affine2D.to_values_5, Affine2D.translate,
    Affine2D.clear, Affine2D.dot, Affine2D.identity.
  cbn [Affine2D.m00 Affine2D.m01 Affine2D.m02 Affine2D.m10 Affine2D.m11
       Affine2D.m12 Affine2D.m20 Affine2D.m21 Affine2D.m22].
  split.
  - destruct tx; np_eval; try reflexivity. f_equal; ring.
  - destruct ty; np_eval; try reflexivity. f_equal; ring.
Qed.

(** What [drag_pan] does in drag-label mode: the delta is the plain
    difference of the two recovered angles, negated and converted to
    degrees; both anchors move to [r_label_angle - dt], the secondary one
    with the opposite radial padding.  The branch that calls [sign] is never
    taken. *)
Lemma drag_pan_drag_r_labels (self : PolarAxes) (p : Bunch.t) (button : Z)
    (key : option string) (x y : float64) :
  let startt := fst (Bunch.trans_inverse p (Bunch.x p, Bunch.y p)) in
  let t := fst (Bunch.trans_inverse p (x, y)) in
  let dt := ((t - startt) * Fin (-1)) / Np.pi * Fin 180 in
  let rpad := Affine2D.to_values_5 (_r_label1_position self) in
  _pan_start self = Some p ->
  Bunch.mode p = "drag_r_labels"%string ->
  exists dragged,
    drag_pan self button key x y = Ok dragged
    /\ Affine2D.to_values_4 (_r_label1_position dragged)
       = Bunch.r_label_angle p - dt
    /\ Affine2D.to_values_4 (_r_label2_position dragged)
       = Bunch.r_label_angle p - dt
    /\ Affine2D.to_values_5 (_r_label1_position dragged) = rpad
    /\ Affine2D.to_values_5 (_r_label2_position dragged) = - rpad
    /\ viewLim dragged = viewLim self.
Proof.
  intros startt t dt rpad Hp Hmode.
  unfold drag_pan. rewrite Hp, Hmode.
  cbn [String.eqb Ascii.eqb Bool.eqb]. cbv zeta.
  fold startt t. rewrite abs_sub_swap.
  eexists. split; [reflexivity|].
  cbn [_r_label1_position _r_label2_position with_r_labels viewLim].
  repeat split; apply translate_clear_values.
Qed.

(** The specification's example: from an anchor at 22.5 degrees, a pointer
    that moves by -10 degrees gives [dt = +10] and the anchor 12.5. *)
Lemma drag_pan_drag_r_labels_example (self : PolarAxes) (p : Bunch.t)
    (button : Z) (key : option string) (x y : float64) (s : R) :
  _pan_start self = Some p ->
  Bunch.mode p = "drag_r_labels"%string ->
  Bunch.r_label_angle p = Fin (45 / 2) ->
  fst (Bunch.trans_inverse p (Bunch.x p, Bunch.y p)) = Fin s ->
  fst (Bunch.trans_inverse p (x, y)) = Fin (s - PI / 18) ->
  exists dragged,
    drag_pan self button key x y = Ok dragged
    /\ Affine2D.to_values_4 (_r_label1_position dragged) = Fin (25 / 2)
    /\ Affine2D.to_values_4 (_r_label2_position dragged) = Fin (25 / 2).
Proof.
  intros Hp Hmode Hangle Hstart Hcur.
  destruct (drag_pan_drag_r_labels self p button key x y Hp Hmode)
    as (dragged & Hdrag & H1 & H2 & _).
  rewrite Hangle, Hstart, Hcur in H1, H2.
  assert (Hval : Fin (45 / 2)
                 - (Fin (s - PI / 18) - Fin s) * Fin (-1) / Np.pi * Fin 180
                 = Fin (25 / 2)).
  { pose proof PI_RGT_0. np_eval. f_equal. field. lra. }
  rewrite Hval in H1, H2. now exists dragged.
Qed.

Lemma start_pan_button_1_near (self : PolarAxes) (x y : float64) :
  let angle :=
    Affine2D.to_values_4 (_r_label1_position self) / Fin 180 * Np.pi in
  let epsilon := Np.pi / Fin 45 in
  let t := fst (transData_inverted self (viewLim self) (x, y)) in
  (t >=? angle - epsilon) && (t <=? angle + epsilon) = true ->
  _pan_start (start_pan self x y 1)
  = Some (Bunch.make (get_rmax self)
            (transData self (viewLim self))
            (transData_inverted self (viewLim self))
            (Affine2D.to_values_4 (_r_label1_position self))
            x y "drag_r_labels"%string).
Proof.
  intros angle epsilon t Hnear. unfold start_pan.
  cbn [Z.eqb Pos.eqb]. cbv zeta. fold angle epsilon t. rewrite Hnear.
  reflexivity.
Qed.

Lemma wrap_aware_delta_example :
  wrap_aware_delta (PI / 8) (13 * PI / 8) = (- (PI / 2))%R.
Proof.
  pose proof PI_RGT_0 as Hpi. unfold wrap_aware_delta. cbv zeta.
  replace (13 * PI / 8 - PI / 8)%R with (3 * PI / 2)%R by field.
  destruct (Rlt_dec 0 (3 * PI / 2)); [|lra].
  rewrite (Rabs_left (3 * PI / 2 - 2 * PI)) by lra.
  rewrite (Rabs_right (3 * PI / 2)) by lra.
  destruct (Rlt_dec _ _); lra.
Qed.

(** C4 (evaluation of the code): on an axes filling the unit square with
    [rmin = 0], [rmax = 1] and the label anchor at 22.5 degrees, the primary
    button is pressed over the data point [(pi/8, 1)] and dragged to the data
    point [(13 pi/8, 1)].  The gesture is in drag-label mode and the two
    recovered angles are [pi/8] and [13 pi/8].  The shorter way round is
    [-pi/2], which puts the anchors at [22.5 - 90 = -67.5] degrees; the code
    takes the plain difference [3 pi/2] and puts both anchors at
    [22.5 + 270 = 292.5] degrees, the secondary one with the opposite
    padding. *)
Theorem C4_drag_label_delta_not_wrapped :
  let ax := unit_square_axes (Fin 0) (Fin 1) in
  let press := unit_square_transData (viewLim ax) (Fin (PI / 8), Fin 1) in
  let move := unit_square_transData (viewLim ax) (Fin (13 * PI / 8), Fin 1) in
  let started := start_pan ax (fst press) (snd press) 1 in
  exists p dragged,
    _pan_start started = Some p
    /\ Bunch.mode p = "drag_r_labels"%string
    /\ Bunch.r_label_angle p = Fin (45 / 2)
    /\ fst (Bunch.trans_inverse p (Bunch.x p, Bunch.y p)) = Fin (PI / 8)
    /\ fst (Bunch.trans_inverse p (fst move, snd move)) = Fin (13 * PI / 8)
    /\ drag_pan started 1 None (fst move) (snd move) = Ok dragged
    /\ Affine2D.to_values_4 (_r_label1_position dragged) = Fin (585 / 2)
    /\ Affine2D.to_values_4 (_r_label2_position dragged) = Fin (585 / 2)
    /\ Affine2D.to_values_5 (_r_label2_position dragged)
       = - Affine2D.to_values_5 (_r_label1_position dragged)
    /\ spec_r_label_angle (45 / 2) (PI / 8) (13 * PI / 8) = (- (135 / 2))%R
    /\ Fin (585 / 2)
       <> Fin (spec_r_label_angle (45 / 2) (PI / 8) (13 * PI / 8)).
Proof.
  intros ax press move started.
  pose proof PI_RGT_0 as Hpi.
  assert (Hpress : transData_inverted ax (viewLim ax) (fst press, snd press)
                   = (Fin (PI / 8), Fin 1)).
  { rewrite <- surjective_pairing.
    apply (unit_square_roundtrip 1 (PI / 8) 1); lra. }
  assert (Hmove : transData_inverted ax (viewLim ax) (fst move, snd move)
                  = (Fin (13 * PI / 8), Fin 1)).
  { rewrite <- surjective_pairing.
    apply (unit_square_roundtrip 1 (13 * PI / 8) 1); lra. }
  assert (Hangle : Affine2D.to_values_4 (_r_label1_position ax) = Fin (45 / 2)).
  { apply (translate_clear_values Affine2D.identity). }
  assert (Hstarted : _pan_start started
            = Some (Bunch.make (get_rmax ax) (transData ax (viewLim ax))
                      (transData_inverted ax (viewLim ax))
                      (Affine2D.to_values_4 (_r_label1_position ax))
                      (fst press) (snd press) "drag_r_labels"%string)).
  { apply start_pan_button_1_near. rewrite Hpress, Hangle. cbn [fst].
    apply andb_true_intro. split; np_decide. }
  destruct (drag_pan_drag_r_labels started _ 1 None (fst move) (snd move)
              Hstarted eq_refl)
    as (dragged & Hdrag & H1 & H2 & H3 & H4 & _).
  cbn [Bunch.trans_inverse Bunch.x Bunch.y Bunch.r_label_angle] in H1, H2.
  rewrite Hpress, Hmove, Hangle in H1, H2. cbn [fst] in H1, H2.
  assert (Hval : Fin (45 / 2)
                 - (Fin (13 * PI / 8) - Fin (PI / 8)) * Fin (-1) / Np.pi * Fin 180
                 = Fin (585 / 2)).
  { np_eval. f_equal. field. lra. }
  rewrite Hval in H1, H2.
  assert (Hspec : spec_r_label_angle (45 / 2) (PI / 8) (13 * PI / 8)
                  = (- (135 / 2))%R).
  { unfold spec_r_label_angle. rewrite wrap_aware_delta_example. field. lra. }
  eexists. exists dragged.
  split; [exact Hstarted|].
  cbn [Bunch.mode Bunch.r_label_angle Bunch.trans_inverse Bunch.x Bunch.y].
  rewrite Hpress, Hmove, Hangle. cbn [fst].
  repeat split; try assumption; try reflexivity.
  - now rewrite H3, H4.
  - rewrite Hspec. intros [= H]. lra.
Qed.

(** * Further properties of the projections *)








(** ** Range and degenerate cases of the inverse projection *)

Lemma arccos_range (c : float64) :
  Np.arccos c = NaN
  \/ exists v, Np.arccos c = Fin v /\ (0 <= v <= PI)%R.
Proof.
  destruct c as [x| | |]; cbn; auto.
  destruct (Rle_dec (-1) x); auto. destruct (Rle_dec x 1); auto.
  right. eexists. split; [reflexivity | apply acos_bound].
Qed.

(** X7: Every angle returned by the inverse projection is [NaN] or lies in
    [[0, 2 pi]]; it is never infinite. *)
Theorem inverse_angle_range (axes : Store) (self : InvertedPolarTransform)
    (xy : array) :
  Forall (fun row => fst row = NaN
                     \/ exists v, fst row = Fin v /\ (0 <= v <= 2 * PI)%R)
         (InvertedPolarTransform_transform axes self xy).
Proof.
  pose proof PI_RGT_0 as Hpi.
  unfold InvertedPolarTransform_transform. apply Forall_map.
  apply Forall_forall. intros [x y] _. cbn [fst snd]. cbv zeta.
  set (c := x / _). destruct (arccos_range c) as [Hn | (v & Hv & Hb)].
  - rewrite Hn. left. now destruct (y <? Fin 0).
  - rewrite Hv. right. destruct (y <? Fin 0); cbn.
    + eexists. split; [reflexivity | lra].
    + eexists. split; [reflexivity | lra].
Qed.

(** X8: A recovered radius of 0 always comes with an undefined angle. *)
Theorem inverse_zero_radius_has_nan_angle (axes : Store)
    (self : InvertedPolarTransform) (xy : array) :
  Forall (fun row => snd row = Fin 0 -> fst row = NaN)
         (InvertedPolarTransform_transform axes self xy).
Proof.
  unfold InvertedPolarTransform_transform. apply Forall_map.
  apply Forall_forall. intros [x y] _. cbn [fst snd]. cbv zeta.
  intros Hr. rewrite Hr.
  assert (Hc : Np.arccos (x / Fin 0) = NaN).
  { destruct x as [x0| | |]; cbn; try reflexivity.
    - destruct (Req_dec_T 0 0) as [_|n]; [|now destruct n].
      unfold Np.inf_of_sign.
      destruct (Rlt_dec 0 x0); [reflexivity|].
      destruct (Rlt_dec x0 0); reflexivity.
    - destruct (Rlt_dec 0 0); reflexivity.
    - destruct (Rlt_dec 0 0); reflexivity. }
  rewrite Hc. now destruct (y <? Fin 0).
Qed.

Lemma inverse_zero_radius_witness :
  fst (hd (Fin 0, Fin 0)
         (InvertedPolarTransform_transform (fun _ => bare_axes (Fin 1) (Fin 10))
            (mkInvertedPolarTransform None) [(Fin 0, Fin 0)])) = NaN.
Proof.
  apply (Forall_inv
           (inverse_zero_radius_has_nan_angle
              (fun _ => bare_axes (Fin 1) (Fin 10))
              (mkInvertedPolarTransform None) [(Fin 0, Fin 0)])).
  cbn. replace (0 * 0 + 0 * 0)%R with 0%R by ring. rewrite sqrt_0.
  np_eval; reflexivity.
Defined.

(** In particular the origin, read with no radial offset, has radius 0 and
    no angle. *)
Example inverse_of_origin (axes : Store) :
  InvertedPolarTransform_transform axes (mkInvertedPolarTransform None)
    [(Fin 0, Fin 0)]
  = [(NaN, Fin 0)].
Proof.
  unfold InvertedPolarTransform_transform. cbn.
  replace (0 * 0 + 0 * 0)%R with 0%R by ring. rewrite sqrt_0.
  np_eval. reflexivity.
Qed.

(** ** Inverse, then forward *)





(** * Further properties of the radial affine scale *)




Lemma mul_nan_l (a : float64) : NaN * a = NaN.
Proof. now destruct a. Qed.

Lemma add_nan_l (a : float64) : NaN + a = NaN.
Proof. now destruct a. Qed.

(** X11: An empty radial range ([rmax = rmin], identity scale) raises nothing:
    the scale factor is infinite and the matrix sends every point to
    [(NaN, NaN)]. *)
Theorem empty_radial_range_maps_to_nan (limits : Bbox.t) (m : R) (p : point) :
  Bbox.y0 limits = Fin m -> Bbox.y1 limits = Fin m ->
  exists mtx,
    fst (PolarAffine_get_matrix (PolarAffine_init IdentityTransform limits))
    = Some mtx
    /\ Affine2D.transform_point mtx p = (NaN, NaN).
Proof.
  intros H0 H1. eexists. split.
  - rewrite get_matrix_invalid by reflexivity. reflexivity.
  - cbn [PolarAffine_init _scale_transform _limits IdentityTransform fst snd].
    rewrite H0, H1.
    assert (Hs : Fin (1/2) / (Fin m - Fin m) = PInf).
    { np_simpl. destruct (Req_dec_T (m + - m) 0); [|lra].
      destruct (Rlt_dec 0 (1/2)); [reflexivity | lra]. }
    rewrite Hs.
    assert (E : scale_then_translate PInf
                = Affine2D.make NaN NaN NaN NaN NaN NaN NaN NaN NaN).
    { unfold scale_then_translate, Affine2D.translate, Affine2D.scale,
        Affine2D.dot, Affine2D.identity. cbn. np_eval. reflexivity. }
    rewrite E.
    unfold Affine2D.transform_point.
    cbn [Affine2D.m00 Affine2D.m01 Affine2D.m02 Affine2D.m10 Affine2D.m11
         Affine2D.m12].
    now rewrite !mul_nan_l, !add_nan_l.
Qed.

Lemma empty_radial_range_witness :
  exists mtx,
    fst (PolarAffine_get_matrix
           (PolarAffine_init IdentityTransform
              (Bbox.make (Fin 0) (Fin 3) (Fin 1) (Fin 3)))) = Some mtx
    /\ Affine2D.transform_point mtx (Fin 1, Fin 2) = (NaN, NaN).
Proof.
  apply (empty_radial_range_maps_to_nan
           (Bbox.make (Fin 0) (Fin 3) (Fin 1) (Fin 3)) 3 (Fin 1, Fin 2));
    reflexivity.
Defined.

(** * Further properties of the radius locator *)

Lemma filter_filter_same {A : Type} (f : A -> bool) (l : list A) :
  filter f (filter f l) = filter f l.
Proof.
  induction l as [|x l IH]; cbn; [reflexivity|].
  destruct (f x) eqn:Hx; cbn; rewrite ?Hx, IH; reflexivity.
Qed.

(** X12: [cla] and [set_yscale] wrap whatever major locator the axis has at that
    time.  Wrapping an already wrapped locator changes nothing: the ticks of
    a radius locator built on a radius locator are those of the inner one,
    which are exactly the positive candidates of the base, in their order;
    the view limits are adjusted the same way. *)
Theorem RadialLocator_wrapped_twice {B : Type} `{Locator B} (b : B) :
  RadialLocator_call (mkRadialLocator (mkRadialLocator b))
  = RadialLocator_call (mkRadialLocator b)
  /\ RadialLocator_call (mkRadialLocator b)
     = filter (fun x => x >? Fin 0) (locator_call b)
  /\ (forall vmin vmax,
        RadialLocator_view_limits (mkRadialLocator (mkRadialLocator b)) vmin vmax
        = RadialLocator_view_limits (mkRadialLocator b) vmin vmax).
Proof.
  split; [|split].
  - unfold RadialLocator_call at 1. cbn [base locator_call RadialLocator_Locator].
    unfold RadialLocator_call. apply filter_filter_same.
  - reflexivity.
  - intros vmin vmax. unfold RadialLocator_view_limits at 1.
    cbn [base locator_view_limits RadialLocator_Locator].
    unfold RadialLocator_view_limits. cbn [base].
    now destruct (locator_view_limits b vmin vmax).
Qed.

(** * Further properties of the gesture state machine *)

Lemma drag_pan_zoom (self : PolarAxes) (p : Bunch.t) (button : Z)
    (key : option string) (x y : float64) :
  _pan_start self = Some p ->
  Bunch.mode p = "zoom"%string ->
  drag_pan self button key x y
  = Ok (set_rmax self
          (Bunch.rmax p
           / (snd (Bunch.trans_inverse p (x, y))
              / snd (Bunch.trans_inverse p (Bunch.x p, Bunch.y p))))).
Proof.
  intros Hp Hmode. unfold drag_pan. rewrite Hp, Hmode. reflexivity.
Qed.

Lemma drag_pan_drag_labels_value (self : PolarAxes) (p : Bunch.t) (button : Z)
    (key : option string) (x y : float64) :
  _pan_start self = Some p ->
  Bunch.mode p = "drag_r_labels"%string ->
  let dt := ((fst (Bunch.trans_inverse p (x, y))
              - fst (Bunch.trans_inverse p (Bunch.x p, Bunch.y p)))
             * Fin (-1)) / Np.pi * Fin 180 in
  let rpad := Affine2D.to_values_5 (_r_label1_position self) in
  drag_pan self button key x y
  = Ok (with_r_labels self
          (Affine2D.translate (Bunch.r_label_angle p - dt) rpad
             Affine2D.identity)
          (Affine2D.translate (Bunch.r_label_angle p - dt) (- rpad)
             Affine2D.identity)).
Proof.
  intros Hp Hmode dt rpad. unfold drag_pan. rewrite Hp, Hmode.
  cbn [String.eqb Ascii.eqb Bool.eqb]. cbv zeta.
  rewrite abs_sub_swap. reflexivity.
Qed.

Lemma drag_pan_other_mode (self : PolarAxes) (p : Bunch.t) (button : Z)
    (key : option string) (x y : float64) :
  _pan_start self = Some p ->
  String.eqb (Bunch.mode p) "drag_r_labels"%string = false ->
  String.eqb (Bunch.mode p) "zoom"%string = false ->
  drag_pan self button key x y = Ok self.
Proof.
  intros Hp H1 H2. unfold drag_pan. now rewrite Hp, H1, H2.
Qed.

(** With a snapshot in place, [drag_pan] returns and keeps the snapshot. *)
Lemma drag_pan_ok (self : PolarAxes) (p : Bunch.t) (button : Z)
    (key : option string) (x y : float64) :
  _pan_start self = Some p ->
  exists self', drag_pan self button key x y = Ok self'
                /\ _pan_start self' = Some p.
Proof.
  intros Hp.
  destruct (String.eqb (Bunch.mode p) "drag_r_labels"%string) eqn:H1.
  - apply String.eqb_eq in H1.
    rewrite (drag_pan_drag_labels_value self p button key x y Hp H1).
    eexists. split; [reflexivity | exact Hp].
  - destruct (String.eqb (Bunch.mode p) "zoom"%string) eqn:H2.
    + apply String.eqb_eq in H2.
      rewrite (drag_pan_zoom self p button key x y Hp H2).
      eexists. split; [reflexivity | exact Hp].
    + rewrite (drag_pan_other_mode self p button key x y Hp H1 H2).
      eexists. split; [reflexivity | exact Hp].
Qed.

(** A drag replaces the effect of the previous drag of the same gesture. *)
Lemma last_drag_wins (self self1 : PolarAxes) (b1 b2 : Z)
    (k1 k2 : option string) (x1 y1 x2 y2 : float64) :
  drag_pan self b1 k1 x1 y1 = Ok self1 ->
  drag_pan self1 b2 k2 x2 y2 = drag_pan self b2 k2 x2 y2.
Proof.
  intros H1.
  destruct (_pan_start self) as [p|] eqn:Hp;
    [|unfold drag_pan in H1; rewrite Hp in H1; discriminate].
  destruct (drag_pan_ok self p b1 k1 x1 y1 Hp) as (s & Hs & Hps).
  rewrite Hs in H1. injection H1 as ->.
  destruct (String.eqb (Bunch.mode p) "drag_r_labels"%string) eqn:Hm1.
  - apply String.eqb_eq in Hm1.
    rewrite (drag_pan_drag_labels_value self1 p b2 k2 x2 y2 Hps Hm1),
      (drag_pan_drag_labels_value self p b2 k2 x2 y2 Hp Hm1).
    rewrite (drag_pan_drag_labels_value self p b1 k1 x1 y1 Hp Hm1) in Hs.
    injection Hs as <-.
    cbn [with_r_labels _r_label1_position].
    destruct (translate_clear_values Affine2D.identity
                (Bunch.r_label_angle p
                 - (fst (Bunch.trans_inverse p (x1, y1))
                    - fst (Bunch.trans_inverse p (Bunch.x p, Bunch.y p)))
                   * Fin (-1) / Np.pi * Fin 180)
                (Affine2D.to_values_5 (_r_label1_position self))) as [_ H5].
    unfold Affine2D.clear in H5. rewrite H5. reflexivity.
  - destruct (String.eqb (Bunch.mode p) "zoom"%string) eqn:Hm2.
    + apply String.eqb_eq in Hm2.
      rewrite (drag_pan_zoom self1 p b2 k2 x2 y2 Hps Hm2),
        (drag_pan_zoom self p b2 k2 x2 y2 Hp Hm2).
      rewrite (drag_pan_zoom self p b1 k1 x1 y1 Hp Hm2) in Hs.
      injection Hs as <-. reflexivity.
    + rewrite (drag_pan_other_mode self1 p b2 k2 x2 y2 Hps Hm1 Hm2),
        (drag_pan_other_mode self p b2 k2 x2 y2 Hp Hm1 Hm2).
      rewrite (drag_pan_other_mode self p b1 k1 x1 y1 Hp Hm1 Hm2) in Hs.
      now injection Hs as <-.
Qed.

Lemma drag_pans_last (start : PolarAxes) (p : Bunch.t) (moves : list move)
    (button : Z) (key : option string) (x y : float64) :
  _pan_start start = Some p ->
  forall self,
    (forall b k x' y', drag_pan self b k x' y' = drag_pan start b k x' y') ->
    drag_pans self (moves ++ [(button, key, (x, y))])
    = drag_pan start button key x y.
Proof.
  intros Hp. induction moves as [|[[b k] [x' y']] moves IH]; intros self Hsame.
  - cbn. rewrite Hsame.
    destruct (drag_pan_ok start p button key x y Hp) as (s & -> & _).
    reflexivity.
  - cbn [app drag_pans]. rewrite Hsame.
    destruct (drag_pan_ok start p b k x' y' Hp) as (s & Hs & _).
    rewrite Hs. apply IH. intros b2 k2 x2 y2.
    apply (last_drag_wins start s b b2 k k2 x' y' x2 y2 Hs).
Qed.

(** X14: Within a gesture the drags do not accumulate: after any number of moves
    the axes is what a single drag to the last pointer position would have
    made of the axes as [start_pan] left it. *)
Theorem gesture_depends_on_last_move (self : PolarAxes) (x0 y0 : float64)
    (button0 : Z) (moves : list move) (button : Z) (key : option string)
    (x y : float64) :
  drag_pans (start_pan self x0 y0 button0) (moves ++ [(button, key, (x, y))])
  = drag_pan (start_pan self x0 y0 button0) button key x y.
Proof.
  destruct (start_pan_sets_snapshot self x0 y0 button0) as (p & Hp & _).
  apply (drag_pans_last _ p); [exact Hp | reflexivity].
Qed.

(** X13: With a snapshot in place [drag_pan] never raises (the call to the
    undefined [sign] is out of reach), and it changes at most the two radial
    label anchors or the upper radial limit: the snapshot, the lower radial
    limit and the angular span stay as they are. *)
Theorem drag_pan_with_snapshot_returns (self : PolarAxes) (p : Bunch.t)
    (button : Z) (key : option string) (x y : float64) :
  _pan_start self = Some p ->
  exists self',
    drag_pan self button key x y = Ok self'
    /\ _pan_start self' = Some p
    /\ Bbox.x0 (viewLim self') = Bbox.x0 (viewLim self)
    /\ Bbox.x1 (viewLim self') = Bbox.x1 (viewLim self)
    /\ Bbox.y0 (viewLim self') = Bbox.y0 (viewLim self)
    /\ (viewLim self' = viewLim self
        \/ (_r_label1_position self' = _r_label1_position self
            /\ _r_label2_position self' = _r_label2_position self)).
Proof.
  intros Hp.
  destruct (String.eqb (Bunch.mode p) "drag_r_labels"%string) eqn:H1.
  - apply String.eqb_eq in H1.
    rewrite (drag_pan_drag_labels_value self p button key x y Hp H1).
    eexists. split; [reflexivity|]. cbn. repeat split; auto.
  - destruct (String.eqb (Bunch.mode p) "zoom"%string) eqn:H2.
    + apply String.eqb_eq in H2.
      rewrite (drag_pan_zoom self p button key x y Hp H2).
      eexists. split; [reflexivity|]. cbn. repeat split; auto.
    + rewrite (drag_pan_other_mode self p button key x y Hp H1 H2).
      eexists. split; [reflexivity|]. repeat split; auto.
Qed.

Lemma drag_pan_with_snapshot_witness :
  exists self',
    drag_pan (start_pan (bare_axes (Fin 0) (Fin 10)) (Fin 1) (Fin 1) 3)
      3 None (Fin 2) (Fin 2) = Ok self'
    /\ Bbox.y0 (viewLim self') = Fin 0.
Proof.
  destruct (drag_pan_with_snapshot_returns
              (start_pan (bare_axes (Fin 0) (Fin 10)) (Fin 1) (Fin 1) 3)
              _ 3 None (Fin 2) (Fin 2) eq_refl)
    as (s & Hs & _ & _ & _ & Hy & _).
  exists s. split; [exact Hs | exact Hy].
Defined.

Lemma drag_pans_inert (self : PolarAxes) (p : Bunch.t) (moves : list move) :
  _pan_start self = Some p ->
  String.eqb (Bunch.mode p) "drag_r_labels"%string = false ->
  String.eqb (Bunch.mode p) "zoom"%string = false ->
  drag_pans self moves = Ok self.
Proof.
  intros Hp H1 H2. induction moves as [|[[b k] [x y]] moves IH]; cbn.
  - reflexivity.
  - now rewrite (drag_pan_other_mode self p b k x y Hp H1 H2).
Qed.

(** X15: A gesture made with a button other than 1 and 3 leaves the axes exactly
    as it was, whatever the moves; so does a press immediately followed by a
    release, with any button. *)
Theorem inert_gestures_change_nothing (self : PolarAxes) (x0 y0 : float64)
    (button0 : Z) (moves : list move) :
  _pan_start self = None ->
  ((button0 =? 1)%Z = false -> (button0 =? 3)%Z = false ->
   gesture self x0 y0 button0 moves = Ok self)
  /\ gesture self x0 y0 button0 [] = Ok self.
Proof.
  intros Hnone. split.
  - intros H1 H3. unfold gesture.
    rewrite (drag_pans_inert (start_pan self x0 y0 button0)
               (Bunch.make (get_rmax self) (transData self (viewLim self))
                  (transData_inverted self (viewLim self))
                  (Affine2D.to_values_4 (_r_label1_position self))
                  x0 y0 EmptyString) moves).
    + unfold end_pan, start_pan. cbn. f_equal. destruct self; cbn in *.
      now rewrite Hnone.
    + unfold start_pan. now rewrite H1, H3.
    + reflexivity.
    + reflexivity.
  - unfold gesture, drag_pans, end_pan, start_pan. cbn. f_equal.
    destruct self; cbn in *. now rewrite Hnone.
Qed.

Lemma inert_gestures_witness :
  gesture (bare_axes (Fin 0) (Fin 10)) (Fin 1) (Fin 1) 2
    [(2%Z, None, (Fin 3, Fin 4)); (2%Z, None, (Fin 5, Fin 6))]
  = Ok (bare_axes (Fin 0) (Fin 10)).
Proof.
  apply (proj1 (inert_gestures_change_nothing (bare_axes (Fin 0) (Fin 10))
                  (Fin 1) (Fin 1) 2 _ eq_refl)); reflexivity.
Defined.

(** ** Zooming *)



(** X18: A radius of 0 under the pointer raises nothing in zoom mode.  Pressed on
    a point of radius 0 and dragged to a positive radius, the gesture sets
    the maximum radius to 0; pressed on a positive radius and dragged to
    radius 0, it sets a positive maximum radius to [+inf]; with both radii 0
    it sets it to [NaN]. *)
Theorem zoom_with_zero_radius (self : PolarAxes) (p : Bunch.t) (button : Z)
    (key : option string) (x y : float64) (M s r : R) :
  _pan_start self = Some p ->
  Bunch.mode p = "zoom"%string ->
  Bunch.rmax p = Fin M ->
  snd (Bunch.trans_inverse p (Bunch.x p, Bunch.y p)) = Fin s ->
  snd (Bunch.trans_inverse p (x, y)) = Fin r ->
  (s = 0%R -> (0 < r)%R ->
   drag_pan self button key x y = Ok (set_rmax self (Fin 0)))
  /\ ((0 < s)%R -> r = 0%R -> (0 < M)%R ->
      drag_pan self button key x y = Ok (set_rmax self PInf))
  /\ (s = 0%R -> r = 0%R ->
      drag_pan self button key x y = Ok (set_rmax self NaN)).
Proof.
  intros Hp Hmode HM Hs Hr.
  rewrite (drag_pan_zoom self p button key x y Hp Hmode), HM, Hs, Hr.
  repeat split.
  - intros -> Hrpos. do 2 f_equal. np_eval; reflexivity.
  - intros Hspos -> HMpos. do 2 f_equal. np_simpl.
    destruct (Req_dec_T s 0); [lra|].
    replace (0 / s)%R with 0%R by (field; lra).
    np_eval; reflexivity.
  - intros -> ->. do 2 f_equal. np_eval; reflexivity.
Qed.

(** On the chain of an axes filling the unit square, the centre of the axes
    has radius 0 and no angle. *)
Lemma unit_square_centre (rmax : R) :
  (0 < rmax)%R ->
  unit_square_transData_inverted (limits_0 rmax) (Fin (1/2), Fin (1/2))
  = (NaN, Fin 0).
Proof.
  intros Hmax. unfold unit_square_transData_inverted.
  cbn [limits_0 Bbox.ymax Bbox.ymin Bbox.y0 Bbox.y1 fst snd].
  assert (Hs : Fin (1/2) / (Fin rmax - Fin 0) = Fin (1/2 / rmax)).
  { np_simpl. destruct (Req_dec_T (rmax + - 0) 0); [exfalso; lra|].
    f_equal. field. lra. }
  rewrite Hs.
  assert (Hnz : (1/2 / rmax <> 0)%R).
  { apply Rgt_not_eq. apply Rdiv_lt_0_compat; lra. }
  assert (Hq : (Fin (1/2) - Fin (1/2)) / Fin (1/2 / rmax) = Fin 0).
  { np_simpl. destruct (Req_dec_T (1/2 / rmax) 0); [contradiction|].
    f_equal. field. lra. }
  rewrite Hq. unfold InvertedPolarTransform_transform. cbn.
  replace (0 * 0 + 0 * 0)%R with 0%R by ring. rewrite sqrt_0.
  np_eval; f_equal; f_equal; ring.
Qed.

Lemma zoom_with_zero_radius_witness :
  let ax := unit_square_axes (Fin 0) (Fin 10) in
  let pointer := unit_square_transData (viewLim ax) (Fin 0, Fin 2) in
  let started := start_pan ax (Fin (1/2)) (Fin (1/2)) 3 in
  drag_pan started 3 None (fst pointer) (snd pointer)
  = Ok (set_rmax started (Fin 0)).
Proof.
  intros ax pointer started.
  assert (Hpi : (0 <= 0 < 2 * PI)%R) by (pose proof PI_RGT_0; lra).
  apply (proj1 (zoom_with_zero_radius started
           (Bunch.make (get_rmax ax) (transData ax (viewLim ax))
              (transData_inverted ax (viewLim ax))
              (Affine2D.to_values_4 (_r_label1_position ax))
              (Fin (1/2)) (Fin (1/2)) "zoom"%string)
           3 None (fst pointer) (snd pointer) 10 0 2
           eq_refl eq_refl eq_refl
           (f_equal snd (unit_square_centre 10 ltac:(lra)))
           (f_equal snd
              (eq_trans
                 (f_equal (unit_square_transData_inverted (limits_0 10))
                    (eq_sym (surjective_pairing pointer)))
                 (unit_square_roundtrip 10 0 2 ltac:(lra) Hpi ltac:(lra)))))).
  - reflexivity.
  - lra.
Defined.

(** ** Dragging the radial labels: the anchor follows the pointer *)



Lemma nan_ge (a : float64) : (NaN >=? a) = false.
Proof. now destruct a. Qed.

(** X16: A press of the primary button on a point whose angle is undefined (the
    centre of the axes) never grabs the labels: the whole gesture leaves the
    axes as it was. *)
Theorem press_without_angle_is_inert (self : PolarAxes) (x0 y0 : float64)
    (moves : list move) :
  _pan_start self = None ->
  fst (transData_inverted self (viewLim self) (x0, y0)) = NaN ->
  gesture self x0 y0 1 moves = Ok self.
Proof.
  intros Hnone Hnan. unfold gesture.
  rewrite (drag_pans_inert (start_pan self x0 y0 1)
             (Bunch.make (get_rmax self) (transData self (viewLim self))
                (transData_inverted self (viewLim self))
                (Affine2D.to_values_4 (_r_label1_position self))
                x0 y0 EmptyString) moves).
  - unfold end_pan, start_pan. cbn. f_equal. destruct self; cbn in *.
    now rewrite Hnone.
  - unfold start_pan. cbn [Z.eqb Pos.eqb]. cbv zeta.
    rewrite Hnan, nan_ge. reflexivity.
  - reflexivity.
  - reflexivity.
Qed.

Lemma press_without_angle_witness :
  gesture (unit_square_axes (Fin 0) (Fin 10)) (Fin (1/2)) (Fin (1/2)) 1
    [(1%Z, None, (Fin 1, Fin 1))]
  = Ok (unit_square_axes (Fin 0) (Fin 10)).
Proof.
  apply (press_without_angle_is_inert (unit_square_axes (Fin 0) (Fin 10))
           (Fin (1/2)) (Fin (1/2)) [(1%Z, None, (Fin 1, Fin 1))] eq_refl).
  exact (f_equal fst (unit_square_centre 10 ltac:(lra))).
Defined.

(** * Radial grids *)

Lemma np_minimum_pos (a b : float64) :
  (a >? Fin 0) = true -> (b >? Fin 0) = true ->
  (np_minimum a b >? Fin 0) = true.
Proof.
  intros Ha Hb. unfold np_minimum.
  destruct a, b; try discriminate; cbn [is_nan orb];
    destruct (_ <? _); assumption.
Qed.

Lemma fold_minimum_pos (l : list float64) (v : float64) :
  (v >? Fin 0) = true -> Forall (fun r => (r >? Fin 0) = true) l ->
  (fold_left np_minimum l v >? Fin 0) = true.
Proof.
  revert v. induction l as [|r l IH]; intros v Hv Hl; cbn; [exact Hv|].
  inversion Hl; subst. apply IH; [now apply np_minimum_pos | assumption].
Qed.

Ltac np_cases_all :=
  repeat match goal with
    | H : context [Rlt_dec ?a ?b] |- _ => destruct (Rlt_dec a b)
    | H : context [Rle_dec ?a ?b] |- _ => destruct (Rle_dec a b)
    | |- context [Rlt_dec ?a ?b] => destruct (Rlt_dec a b)
    | |- context [Rle_dec ?a ?b] => destruct (Rle_dec a b)
    end.

Lemma np_minimum_le_zero (a b : float64) :
  a <> NaN -> b <> NaN ->
  (a <=? Fin 0) = true \/ (b <=? Fin 0) = true ->
  np_minimum a b <> NaN /\ (np_minimum a b <=? Fin 0) = true.
Proof.
  intros Ha Hb Hle. unfold np_minimum.
  destruct a as [x| | |], b as [y| | |]; try congruence;
    cbn [is_nan orb]; destruct (_ <? _) eqn:Hlt;
    (split; [discriminate|]); cbn in *; np_cases_all;
    destruct Hle as [H|H];
    first [reflexivity | discriminate | exfalso; lra].
Qed.

Lemma np_minimum_not_nan (a b : float64) :
  a <> NaN -> b <> NaN -> np_minimum a b <> NaN.
Proof.
  intros Ha Hb. unfold np_minimum.
  destruct a, b; try congruence; cbn [is_nan orb];
    destruct (_ <? _); discriminate.
Qed.

Lemma fold_minimum_le_zero (l : list float64) (v : float64) :
  v <> NaN -> Forall (fun r => r <> NaN) l ->
  (v <=? Fin 0) = true \/ Exists (fun r => (r <=? Fin 0) = true) l ->
  (fold_left np_minimum l v <=? Fin 0) = true.
Proof.
  revert v. induction l as [|r l IH]; intros v Hv Hl Hle; cbn.
  - destruct Hle as [H|H]; [exact H | inversion H].
  - inversion Hl; subst. apply IH.
    + now apply np_minimum_not_nan.
    + assumption.
    + destruct Hle as [H|H].
      * left. apply np_minimum_le_zero; auto.
      * inversion H; subst.
        -- left. apply np_minimum_le_zero; auto.
        -- now right.
Qed.

Lemma mul_neg_l (a b : float64) : (- a) * b = - (a * b).
Proof.
  destruct a as [x| | |], b as [y| | |]; cbn; try reflexivity;
    unfold Np.inf_of_sign; np_cases; try reflexivity; try (exfalso; lra).
  - f_equal. ring.
Qed.

Section SetRgridsFacts.

Variables YAxis Kwargs Gridlines Ticklabels : Type.
Variable set_yticks : list float64 -> YAxis * Bbox.t -> YAxis * Bbox.t.
Variable set_yticklabels : list string -> YAxis -> YAxis.
Variable set_major_formatter : string -> YAxis -> YAxis.
Variable update_ticklabels : Kwargs -> YAxis -> YAxis.
Variable get_gridlines : YAxis -> Gridlines.
Variable get_ticklabels : YAxis -> Ticklabels.

Local Abbreviation set_rgrids' :=
  (set_rgrids YAxis Kwargs Gridlines Ticklabels set_yticks set_yticklabels
     set_major_formatter update_ticklabels get_gridlines get_ticklabels).

Lemma set_rgrids_returns_when_min_passes (self : PolarAxes) (yaxis : YAxis)
    (radii : list float64) (labels : option (list string))
    (angle rpad : option float64) (fmt : option string) (kwargs : Kwargs)
    (rmin : float64) :
  ndarray_min radii = Some rmin -> (rmin <=? Fin 0) = false ->
  exists out,
    set_rgrids' self yaxis radii labels angle rpad fmt kwargs = Returned out.
Proof.
  intros Hmin Hle. unfold set_rgrids. rewrite Hmin, Hle.
  destruct (set_yticks radii (yaxis, viewLim self)) as [y l].
  eexists. reflexivity.
Qed.

(** X21: [set_rgrids] raises [ValueError] on an empty list of radii and, when no
    radius is [NaN], as soon as one radius is [<= 0]; it returns when every
    radius is positive. *)
Theorem set_rgrids_checks_radii (self : PolarAxes) (yaxis : YAxis)
    (radii : list float64) (labels : option (list string))
    (angle rpad : option float64) (fmt : option string) (kwargs : Kwargs) :
  (radii = [] ->
   set_rgrids' self yaxis radii labels angle rpad fmt kwargs = ValueError)
  /\ (Forall (fun r => r <> NaN) radii ->
      Exists (fun r => (r <=? Fin 0) = true) radii ->
      set_rgrids' self yaxis radii labels angle rpad fmt kwargs = ValueError)
  /\ (radii <> [] -> Forall (fun r => (r >? Fin 0) = true) radii ->
      exists out,
        set_rgrids' self yaxis radii labels angle rpad fmt kwargs
        = Returned out).
Proof.
  repeat split.
  - intros ->. reflexivity.
  - intros Hnn Hex. destruct radii as [|v rest]; [inversion Hex|].
    unfold set_rgrids. cbn [ndarray_min].
    inversion Hnn; subst.
    rewrite fold_minimum_le_zero; auto.
    inversion Hex; subst; [now left | now right].
  - intros Hne Hpos. destruct radii as [|v rest]; [congruence|].
    inversion Hpos; subst.
    apply (set_rgrids_returns_when_min_passes _ _ _ _ _ _ _ _
             (fold_left np_minimum rest v)); [reflexivity|].
    apply gt_zero_not_le. now apply fold_minimum_pos.
Qed.

(** X22: When [set_rgrids] returns, the two radial label anchors sit at the same
    angle (the one given, else the one the primary anchor had) with opposite
    radial paddings, [rpad * rmax] and its negation, [rmax] being read after
    the ticks were set; a gesture in progress is not disturbed. *)
Theorem set_rgrids_places_labels (self self' : PolarAxes) (yaxis yaxis' : YAxis)
    (radii : list float64) (labels : option (list string))
    (angle rpad : option float64) (fmt : option string) (kwargs : Kwargs)
    (out : Gridlines * Ticklabels) :
  set_rgrids' self yaxis radii labels angle rpad fmt kwargs
  = Returned (self', yaxis', out) ->
  Affine2D.to_values_4 (_r_label1_position self')
  = match angle with
    | Some a => a
    | None => Affine2D.to_values_4 (_r_label1_position self)
    end
  /\ Affine2D.to_values_4 (_r_label2_position self')
     = Affine2D.to_values_4 (_r_label1_position self')
  /\ _rpad self' = match rpad with Some rp => rp | None => _rpad self end
  /\ Affine2D.to_values_5 (_r_label1_position self')
     = _rpad self' * get_rmax self'
  /\ Affine2D.to_values_5 (_r_label2_position self')
     = - Affine2D.to_values_5 (_r_label1_position self')
  /\ _pan_start self' = _pan_start self.
Proof.
  unfold set_rgrids.
  destruct (ndarray_min radii) as [rmin|]; [|discriminate].
  destruct (rmin <=? Fin 0); [discriminate|].
  destruct (set_yticks radii (yaxis, viewLim self)) as [y l].
  intros [= <- _ _].
  destruct rpad as [rp|], angle as [a|];
    cbn [with_r_labels with_rpad with_viewLim _r_label1_position
         _r_label2_position _rpad _pan_start get_rmax viewLim];
    repeat split;
    try apply (translate_clear_values Affine2D.identity);
    try (rewrite (proj2 (translate_clear_values Affine2D.identity _ _)),
           (proj2 (translate_clear_values Affine2D.identity _ _));
         apply mul_neg_l);
    try (rewrite !(proj1 (translate_clear_values Affine2D.identity _ _));
         reflexivity).
Qed.

End SetRgridsFacts.

Lemma set_rgrids_checks_radii_witness :
  set_rgrids unit unit unit unit (fun _ s => s) (fun _ y => y) (fun _ y => y)
    (fun _ y => y) (fun _ => tt) (fun _ => tt)
    (bare_axes (Fin 0) (Fin 10)) tt [Fin 1; Fin 0; Fin 2]
    None None None None tt
  = ValueError.
Proof.
  apply (proj1 (proj2 (set_rgrids_checks_radii unit unit unit unit
           (fun _ s => s) (fun _ y => y) (fun _ y => y) (fun _ y => y)
           (fun _ => tt) (fun _ => tt)
           (bare_axes (Fin 0) (Fin 10)) tt [Fin 1; Fin 0; Fin 2]
           None None None None tt))).
  - repeat constructor; discriminate.
  - right. left. np_decide.
Defined.

Lemma set_rgrids_places_labels_witness :
  exists self' yaxis' out,
    set_rgrids unit unit unit unit (fun _ s => s) (fun _ y => y) (fun _ y => y)
      (fun _ y => y) (fun _ => tt) (fun _ => tt)
      (bare_axes (Fin 0) (Fin 10)) tt [Fin 1; Fin 2]
      None (Some (Fin 45)) None None tt
    = Returned (self', yaxis', out)
    /\ Affine2D.to_values_4 (_r_label1_position self') = Fin 45
    /\ Affine2D.to_values_5 (_r_label2_position self')
       = - Affine2D.to_values_5 (_r_label1_position self').
Proof.
  destruct (set_rgrids_returns_when_min_passes unit unit unit unit
              (fun _ s => s) (fun _ y => y) (fun _ y => y) (fun _ y => y)
              (fun _ => tt) (fun _ => tt)
              (bare_axes (Fin 0) (Fin 10)) tt [Fin 1; Fin 2]
              None (Some (Fin 45)) None None tt (Fin 1))
    as [[[self' yaxis'] out] Hout].
  - cbn. unfold np_minimum. cbn. np_eval; reflexivity.
  - np_decide.
  - exists self', yaxis', out.
    destruct (set_rgrids_places_labels unit unit unit unit
                (fun _ s => s) (fun _ y => y) (fun _ y => y) (fun _ y => y)
                (fun _ => tt) (fun _ => tt) _ _ _ _ _ _ _ _ _ _ _ Hout)
      as (H4 & _ & _ & _ & H5 & _).
    split; [exact Hout | split; [exact H4 | exact H5]].
Defined.

(** * Whole gestures and undefined rows *)

(** X19: A complete zoom gesture on an idle axes (press with button 3, any number
    of moves, release) returns an idle axes that differs from the original
    one in the upper radial limit only; that limit is the one of the press
    divided by the ratio of the radius under the last pointer position to
    the radius under the press point, both read through the inverse
    transform as it was at the press. *)
Theorem zoom_gesture_outcome (self : PolarAxes) (x0 y0 : float64)
    (moves : list move) (button : Z) (key : option string) (x y : float64) :
  _pan_start self = None ->
  let inverse := transData_inverted self (viewLim self) in
  gesture self x0 y0 3 (moves ++ [(button, key, (x, y))])
  = Ok (set_rmax self
          (get_rmax self / (snd (inverse (x, y)) / snd (inverse (x0, y0))))).
Proof.
  intros Hnone inverse. unfold gesture.
  set (p := Bunch.make (get_rmax self) (transData self (viewLim self))
              (transData_inverted self (viewLim self))
              (Affine2D.to_values_4 (_r_label1_position self))
              x0 y0 "zoom"%string).
  assert (Hp : _pan_start (start_pan self x0 y0 3) = Some p) by reflexivity.
  rewrite (drag_pans_last (start_pan self x0 y0 3) p moves button key x y Hp)
    by reflexivity.
  rewrite (drag_pan_zoom _ p button key x y Hp eq_refl).
  unfold end_pan. cbn. f_equal. destruct self; cbn in *. now rewrite Hnone.
Qed.

Lemma zoom_gesture_outcome_witness :
  gesture (bare_axes (Fin 0) (Fin 10)) (Fin 1) (Fin 5) 3
    [(3%Z, None, (Fin 1, Fin 7)); (3%Z, None, (Fin 1, Fin 10))]
  = Ok (set_rmax (bare_axes (Fin 0) (Fin 10))
          (Fin 10 / (Fin 10 / Fin 5))).
Proof.
  apply (zoom_gesture_outcome (bare_axes (Fin 0) (Fin 10)) (Fin 1) (Fin 5)
           [(3%Z, None, (Fin 1, Fin 7))] 3 None (Fin 1) (Fin 10) eq_refl).
Defined.

Lemma mul_nan_r (a : float64) : a * NaN = NaN.
Proof. now destruct a. Qed.

(** X6: A row whose radius is [NaN], or whose angle is [NaN] or infinite, is
    projected to [(NaN, NaN)] whatever the radial offset. *)
Theorem transform_propagates_undefined (axes : Store) (self : PolarTransform)
    (t r : float64) :
  r = NaN \/ t = NaN \/ t = PInf \/ t = NInf ->
  PolarTransform_transform axes self [(t, r)] = [(NaN, NaN)].
Proof.
  intros Hundef. unfold PolarTransform_transform. cbv zeta.
  destruct (_ !=? Fin 0); cbn [map fst snd].
  - destruct (_ <? Fin 0); [reflexivity|]. cbn [Np.where_].
    destruct Hundef as [-> | [-> | [-> | ->]]]; cbn [Np.cos Np.sin];
      rewrite ?mul_nan_r; reflexivity.
  - destruct Hundef as [-> | [-> | [-> | ->]]]; cbn [Np.cos Np.sin];
      rewrite ?mul_nan_r, ?mul_nan_l; reflexivity.
Qed.

Lemma transform_propagates_undefined_witness :
  PolarTransform_transform (fun _ => bare_axes (Fin 1) (Fin 10))
    (mkPolarTransform (Some 0%nat)) [(PInf, Fin 3)]
  = [(NaN, NaN)].
Proof.
  apply (transform_propagates_undefined
           (fun _ => bare_axes (Fin 1) (Fin 10))
           (mkPolarTransform (Some 0%nat)) PInf (Fin 3)).
  right. right. left. reflexivity.
Defined.
